(** * drmap: USGS GridFloat tiles, tile naming, tile fetch and geodesic math

    A shallow embedding of [grid_float.h], [grid_float.cpp] and the helpers of
    [string_functions] and [diskfile] they call.

    - [int] is [Z]; [std::string] is [string].
    - [double] and [float] are a type [D] behind the interface [Arith]: the
      code of the tile is written once against the interface, and read at two
      instances: [Double] (IEEE 754 binary64, the kernel's primitive floats,
      executable) and [Real] (exact real arithmetic, no rounding).
    - The functions of <cmath> and std::to_string are outside the repository:
      [sin], [cos], [asin] and [atan2] are the interface [Libm].
    - A call that can throw, exit or index a vector out of range returns an
      [outcome]. *)

From Stdlib Require Import ZArith List String Ascii Bool Lia DecimalString.
From Stdlib Require Import DecimalPos.
From Stdlib Require Import Reals Lra Psatz.
From Stdlib Require Import Floats.
Import ListNotations.

Local Open Scope Z_scope.

(** ** Outcomes of a call *)

(** The text of a [grid_float_error]: the fixed part of the message and the
    two coordinates that [::to_string] formats into it. *)
Record reason (D : Type) : Type := mk_reason
  { r_text : string;
    r_latitude : D;
    r_longitude : D }.

Arguments mk_reason {D} _ _ _.
Arguments r_text {D} _.
Arguments r_latitude {D} _.
Arguments r_longitude {D} _.

Inductive outcome (D A : Type) : Type :=
| Ok (a : A)                               (* normal return *)
| Throw (code : Z) (why : reason D)        (* throw grid_float_error(code, why) *)
| Exit (status : Z)                        (* exit(status) *)
| Undefined.                               (* vector indexed out of range *)

Arguments Ok {D A} _.
Arguments Throw {D A} _ _.
Arguments Exit {D A} _.
Arguments Undefined {D A}.

Definition bind {D A B : Type} (m : outcome D A) (k : A -> outcome D B)
  : outcome D B :=
  match m with
  | Ok a => k a
  | Throw c w => Throw c w
  | Exit s => Exit s
  | Undefined => Undefined
  end.

Notation "x <- m ;; k" := (bind m (fun x => k))
  (at level 61, m at next level, right associativity).

(** <<constexpr int GRID_FLOAT_NODATA { -1 };>> *)
Definition GRID_FLOAT_NODATA : Z := -1.

(** ** The arithmetic of [double] and [float] *)

Class Arith (D : Type) : Type :=
  { add : D -> D -> D;
    sub : D -> D -> D;
    mul : D -> D -> D;
    div : D -> D -> D;
    opp : D -> D;
    sqrt : D -> D;
    ltb : D -> D -> bool;
    leb : D -> D -> bool;
    eqb : D -> D -> bool;
    (** an [int] converted to [double] *)
    of_int : Z -> D;
    (** [int(x)]: the fractional part is discarded (truncation toward zero);
        C++ leaves the conversion undefined when the truncated value does not
        fit an [int] *)
    to_int : D -> Z;
    (** a [double] converted to [float] *)
    to_float : D -> D;
    (** the largest integer not above [x]; no code of the tile calls it, the
        specification of the tile code does *)
    floor : D -> Z }.

Class Libm (D : Type) : Type :=
  { sin : D -> D;
    cos : D -> D;
    asin : D -> D;
    atan2 : D -> D -> D }.

Declare Scope num_scope.
Delimit Scope num_scope with num.
Infix "+" := add : num_scope.
Infix "-" := sub : num_scope.
Infix "*" := mul : num_scope.
Infix "/" := div : num_scope.
Notation "- x" := (opp x) : num_scope.
Infix "<?" := ltb : num_scope.
Infix "<=?" := leb : num_scope.
Infix "=?" := eqb : num_scope.
Notation "x >=? y" := (leb y x) (at level 70) : num_scope.
Notation "x >? y" := (ltb y x) (at level 70) : num_scope.

(** A decimal literal [m / 10^k] of the source, [m] and [10^k] both exact as
    [double]: the correctly rounded quotient is the literal's value. *)
Definition dec {D} `{Arith D} (m : Z) (k : Z) : D :=
  (of_int m / of_int (10 ^ k))%num.

(** ** grid_float_tile *)

Section Tile.
Context {D : Type} {AR : Arith D}.
Local Open Scope num_scope.

Inductive QUADRANT : Type := Q0 | Q1 | Q2 | Q3 | Q4.

(** The members of the class the operations below read.  [_file] is the
    content of [_data_filename], one entry per 4-byte cell; [_data] is the
    in-memory raster, [_data[row][column]]. *)
Record grid_float_tile : Type := mk_tile
  { _n_columns : Z;
    _n_rows : Z;
    _xllcorner : D;
    _yllcorner : D;
    _cellsize : D;
    _nodata_value : Z;
    _nodata : Z;
    _data : list (list D);
    _sm : bool;
    _file : list D;
    _xl : D;
    _xr : D;
    _yb : D;
    _yt : D }.

(** One row of the constructor's import loop: [vector<float> row(_n_columns)]
    is zero-filled, and [ifs.read] overwrites as many cells as the file still
    has. *)
Definition read_row (file : list D) (n_columns : Z) (n : Z) : list D :=
  let got := firstn (Z.to_nat n_columns)
               (skipn (Z.to_nat (n * n_columns)) file) in
  (got ++ repeat (of_int 0) (Z.to_nat n_columns - List.length got))%list.

(** The constructor, after the header has been parsed into its fields: the
    derived edges, and the raster unless [small_memory].  The counts are
    those of a header that gives none below zero: with a negative count the
    source asks a vector for a negative size and leaves by
    [std::length_error]. *)
Definition construct (n_columns n_rows : Z) (xllcorner yllcorner cellsize : D)
    (nodata_value nodata : Z) (small_memory : bool) (file : list D)
  : grid_float_tile :=
  {| _n_columns := n_columns;
     _n_rows := n_rows;
     _xllcorner := xllcorner;
     _yllcorner := yllcorner;
     _cellsize := cellsize;
     _nodata_value := nodata_value;
     _nodata := nodata;
     _data := if small_memory then []
              else map (fun n => read_row file n_columns (Z.of_nat n))
                     (seq 0 (Z.to_nat n_rows));
     _sm := small_memory;
     _file := file;
     _xl := xllcorner;
     _xr := xllcorner + cellsize * of_int n_columns;
     _yb := yllcorner;
     _yt := yllcorner + cellsize * of_int n_rows |}.

Variable t : grid_float_tile.

Definition _is_between (value v1 v2 : D) : bool :=
  if (value >=? v1) && (value <=? v2) then true
  else if (value >=? v2) && (value <=? v1) then true
  else false.

Definition _map_latitude_to_index (latitude : D) : Z :=
  let diff := _yt t - latitude in
  let n_cells := diff / _cellsize t in
  to_int n_cells.

Definition _map_longitude_to_index (longitude : D) : Z :=
  let diff := longitude - _xl t in
  let n_cells := diff / _cellsize t in
  to_int n_cells.

Definition is_in_tile (latitude longitude : D) : bool :=
  _is_between latitude (_yb t) (_yt t) && _is_between longitude (_xl t) (_xr t).

Definition index_pair (latitude longitude : D) : Z * Z :=
  (_map_latitude_to_index latitude, _map_longitude_to_index longitude).

(** [_data[row][column]]: no bounds are checked. *)
Definition data_at (row column : Z) : outcome D D :=
  if (row <? 0)%Z || (column <? 0)%Z then Undefined
  else match nth_error (_data t) (Z.to_nat row) with
       | None => Undefined
       | Some r => match nth_error r (Z.to_nat column) with
                   | None => Undefined
                   | Some v => Ok v
                   end
       end.

(** [seekg(posn)] then [read] of 4 bytes on the small-memory stream: a seek
    or a read that leaves the stream not [good()] ends in [exit(-1)]. *)
Definition read_at (posn : Z) : outcome D D :=
  if (posn <? 0)%Z then Exit (-1)
  else match nth_error (_file t) (Z.to_nat (posn / 4)) with
       | None => Exit (-1)
       | Some v => Ok v
       end.

(** <<cell_value(const double& latitude, const double& longitude)>>; the
    byte position is computed in [Z], as in [cell_value_ip] below. *)
Definition cell_value (latitude longitude : D) : outcome D D :=
  if is_in_tile latitude longitude then
    let row_nr := _map_latitude_to_index latitude in
    let column_nr := _map_longitude_to_index longitude in
    let row_size := (_n_columns t * 4)%Z in
    if _sm t then read_at ((row_nr * row_size) + column_nr * 4)%Z
    else data_at row_nr column_nr
  else Ok (to_float (of_int (_nodata t))).

(** <<cell_value(const std::pair<int, int>& ip)>>.  The source computes
    [row_size] and [posn] in [int]; they are computed here in [Z], and are
    the source's as long as they stay in [int] (a byte position of at most
    [INT_MAX]). *)
Definition cell_value_ip (ip : Z * Z) : outcome D D :=
  if _sm t then
    let row_size := (_n_columns t * 4)%Z in
    let posn := ((fst ip * row_size) + (snd ip * 4))%Z in
    read_at posn
  else data_at (fst ip) (snd ip).

(** <<cell_centre(const pair<int, int>& ipair)>> *)
Definition cell_centre_ip (ipair : Z * Z) : D * D :=
  let lat_0 := _yt t - _cellsize t / of_int 2 in
  let latitude := lat_0 - of_int (fst ipair) * _cellsize t in
  let long_0 := _xl t + _cellsize t / of_int 2 in
  let longitude := long_0 + of_int (snd ipair) * _cellsize t in
  (latitude, longitude).

(** <<cell_centre(const double& latitude, const double& longitude)>> *)
Definition cell_centre (latitude longitude : D) : D * D :=
  cell_centre_ip (index_pair latitude longitude).

(** <<valid_height(const float& h)>>: [_nodata + 1] is an [int], converted
    to [float] for the comparison. *)
Definition valid_height (h : D) : bool :=
  h >? to_float (of_int (_nodata t + 1)).

End Tile.

Arguments grid_float_tile D : clear implicits.

(** ** Geodesic math *)

Section Geodesic.
Context {D : Type} {AR : Arith D} {LM : Libm D}.
Local Open Scope num_scope.

(** <<constexpr double RE { 6371000.0 };>> and the constants beside it *)
Definition RE : D := of_int 6371000.
Definition PI : D := dec 314159265358979 14.
Definition DTOR : D := PI / of_int 180.
Definition RTOD : D := of_int 1 / DTOR.

Definition distance (lat1 long1 lat2 long2 : D) : D :=
  let delta_phi := lat2 - lat1 in
  let delta_phi_2 := delta_phi / of_int 2 in
  let delta_lambda := long2 - long1 in
  let delta_lambda_2 := delta_lambda / of_int 2 in
  let a := sin (delta_phi_2 * DTOR) * sin (delta_phi_2 * DTOR) +
           cos (lat1 * DTOR) * cos (lat2 * DTOR) *
             sin (delta_lambda_2 * DTOR) * sin (delta_lambda_2 * DTOR) in
  let c := of_int 2 * atan2 (sqrt a) (sqrt (of_int 1 - a)) in
  let d := RE * c in
  d.

(** <<distance(const std::pair<double, double>&, const double&, const double&)>> *)
Definition distance_p (lat_long_1 : D * D) (lat2 long2 : D) : D :=
  distance (fst lat_long_1) (snd lat_long_1) lat2 long2.

Definition ll_from_bd (lat1 long1 bearing_d distance_m : D) : D * D :=
  let delta := distance_m / RE in
  let lat1_r := lat1 * DTOR in
  let long1_r := long1 * DTOR in
  let theta := bearing_d * DTOR in
  let lat2_r :=
    asin (sin (lat1_r * cos delta + cos lat1_r * sin delta * cos theta)) in
  let long2_r :=
    long1_r + atan2 (sin theta * sin delta * cos lat1_r)
                    (cos delta - sin lat1_r * sin lat2_r) in
  let lat2_d := lat2_r * RTOD in
  let long2_d := long2_r * RTOD in
  (lat2_d, long2_d).

(** The forward geodesic formula as the specification and the comment above
    [ll_from_bd] give it:
    φ2 = asin(sin φ1 ⋅ cos δ + cos φ1 ⋅ sin δ ⋅ cos θ),
    λ2 = λ1 + atan2(sin θ ⋅ sin δ ⋅ cos φ1, cos δ − sin φ1 ⋅ sin φ2). *)
Definition destination_spec (lat1 long1 bearing_d distance_m : D) : D * D :=
  let delta := distance_m / RE in
  let lat1_r := lat1 * DTOR in
  let long1_r := long1 * DTOR in
  let theta := bearing_d * DTOR in
  let lat2_r :=
    asin (sin lat1_r * cos delta + cos lat1_r * sin delta * cos theta) in
  let long2_r :=
    long1_r + atan2 (sin theta * sin delta * cos lat1_r)
                    (cos delta - sin lat1_r * sin lat2_r) in
  (lat2_r * RTOD, long2_r * RTOD).

End Geodesic.

(** ** Quadrants and interpolation *)

Section Interpolation.
Context {D : Type} {AR : Arith D} {LM : Libm D}.
Local Open Scope num_scope.

Variable t : grid_float_tile D.

Definition _quadrant (latitude longitude : D) : QUADRANT :=
  let centre := cell_centre t latitude longitude in
  let c_latitude := fst centre in
  let c_longitude := snd centre in
  let dist := distance_p centre latitude longitude in
  if dist <? of_int 1 then Q0
  else if (latitude >=? c_latitude) && (longitude >=? c_longitude) then Q1
  else if (latitude >=? c_latitude) && (longitude <=? c_longitude) then Q2
  else if (latitude <=? c_latitude) && (longitude <=? c_longitude) then Q3
  else Q4.

(** The loop of the Q1 case:
    <<for (auto n = 0; n < 4; ++n)
        if (valid_height(heights[n]))
        { h += heights[n] / distances[n];  inv_d += 1 / distances[n]; }>>
    from [h = 0], [inv_d = 0]. *)
Definition mean_loop_valid (heights distances : list D) : D * D :=
  fold_left
    (fun (acc : D * D) (n : nat) =>
       let hn := nth n heights (of_int 0) in
       let dn := nth n distances (of_int 0) in
       if valid_height t hn
       then (fst acc + hn / dn, snd acc + of_int 1 / dn)
       else acc)
    (seq 0 4) (of_int 0, of_int 0).

(** The loop of the Q2, Q3 and Q4 cases:
    <<for (auto n = 0; n < 4; ++n)
      { h += heights[n] / distances[n];  inv_d += 1 / distances[n]; }>> *)
Definition mean_loop_all (heights distances : list D) : D * D :=
  fold_left
    (fun (acc : D * D) (n : nat) =>
       let hn := nth n heights (of_int 0) in
       let dn := nth n distances (of_int 0) in
       (fst acc + hn / dn, snd acc + of_int 1 / dn))
    (seq 0 4) (of_int 0, of_int 0).

Definition insufficient (q : string) (latitude longitude : D) : reason D :=
  mk_reason (q ++ ": Insufficient data when interpolating at ") latitude longitude.

Definition interpolated_value (latitude longitude : D) : outcome D D :=
  let ll_centre := cell_centre t latitude longitude in
  let q := _quadrant latitude longitude in
  match q with
  | Q0 =>
      cv <- cell_value t latitude longitude ;;
      if cv <? to_float (of_int (-9000))
      then Throw GRID_FLOAT_NODATA (insufficient "Q0" latitude longitude)
      else Ok cv
  | Q1 =>
      let indices_0 := index_pair t latitude longitude in
      h0 <- cell_value t latitude longitude ;;
      let d0 := distance_p ll_centre latitude longitude in
      (* move right => increment second index *)
      let indices_1 := (fst indices_0, (snd indices_0 + 1)%Z) in
      let ll_centre_1 := cell_centre_ip t indices_1 in
      h1 <- cell_value_ip t indices_1 ;;
      let d1 := distance_p ll_centre_1 latitude longitude in
      (* move up => decrement first index *)
      let indices_2 := ((fst indices_0 - 1)%Z, snd indices_0) in
      let ll_centre_2 := cell_centre_ip t indices_2 in
      h2 <- cell_value_ip t indices_2 ;;
      let d2 := distance_p ll_centre_2 latitude longitude in
      (* move up and to the right *)
      let indices_3 := ((fst indices_0 - 1)%Z, (snd indices_0 + 1)%Z) in
      let ll_centre_3 := cell_centre_ip t indices_3 in
      h3 <- cell_value_ip t indices_3 ;;
      let d3 := distance_p ll_centre_3 latitude longitude in
      let '(h, inv_d) := mean_loop_valid [h0; h1; h2; h3] [d0; d1; d2; d3] in
      if inv_d =? of_int 0
      then Throw GRID_FLOAT_NODATA (insufficient "Q1" latitude longitude)
      else
        let rv := if inv_d =? of_int 0 then of_int (_nodata t) else h / inv_d in
        Ok (to_float rv)
  | Q2 =>
      let indices_0 := index_pair t latitude longitude in
      h0 <- cell_value t latitude longitude ;;
      let d0 := distance_p ll_centre latitude longitude in
      (* move left => decrement second index *)
      let indices_1 := (fst indices_0, (snd indices_0 - 1)%Z) in
      let ll_centre_1 := cell_centre_ip t indices_1 in
      h1 <- cell_value_ip t indices_1 ;;
      let d1 := distance_p ll_centre_1 latitude longitude in
      (* move up => decrement first index *)
      let indices_2 := ((fst indices_0 - 1)%Z, snd indices_0) in
      let ll_centre_2 := cell_centre_ip t indices_2 in
      h2 <- cell_value_ip t indices_2 ;;
      let d2 := distance_p ll_centre_2 latitude longitude in
      (* move up and to the left *)
      let indices_3 := ((fst indices_0 - 1)%Z, (snd indices_0 - 1)%Z) in
      let ll_centre_3 := cell_centre_ip t indices_3 in
      h3 <- cell_value_ip t indices_3 ;;
      let d3 := distance_p ll_centre_3 latitude longitude in
      let '(h, inv_d) := mean_loop_all [h0; h1; h2; h3] [d0; d1; d2; d3] in
      if inv_d =? of_int 0
      then Throw GRID_FLOAT_NODATA (insufficient "Q2" latitude longitude)
      else
        let rv := h / inv_d in
        Ok (to_float rv)
  | Q3 =>
      let indices_0 := index_pair t latitude longitude in
      h0 <- cell_value t latitude longitude ;;
      let d0 := distance_p ll_centre latitude longitude in
      (* move left => decrement second index *)
      let indices_1 := (fst indices_0, (snd indices_0 - 1)%Z) in
      let ll_centre_1 := cell_centre_ip t indices_1 in
      h1 <- cell_value_ip t indices_1 ;;
      let d1 := distance_p ll_centre_1 latitude longitude in
      (* move down => increment first index *)
      let indices_2 := ((fst indices_0 + 1)%Z, snd indices_0) in
      let ll_centre_2 := cell_centre_ip t indices_2 in
      h2 <- cell_value_ip t indices_2 ;;
      let d2 := distance_p ll_centre_2 latitude longitude in
      (* move down and to the left *)
      let indices_3 := ((fst indices_0 + 1)%Z, (snd indices_0 - 1)%Z) in
      let ll_centre_3 := cell_centre_ip t indices_3 in
      h3 <- cell_value_ip t indices_3 ;;
      let d3 := distance_p ll_centre_3 latitude longitude in
      let '(h, inv_d) := mean_loop_all [h0; h1; h2; h3] [d0; d1; d2; d3] in
      if inv_d =? of_int 0
      then Throw GRID_FLOAT_NODATA (insufficient "Q3" latitude longitude)
      else
        let rv := h / inv_d in
        Ok (to_float rv)
  | Q4 =>
      let indices_0 := index_pair t latitude longitude in
      h0 <- cell_value t latitude longitude ;;
      let d0 := distance_p ll_centre latitude longitude in
      (* move right => increment second index *)
      let indices_1 := (fst indices_0, (snd indices_0 + 1)%Z) in
      let ll_centre_1 := cell_centre_ip t indices_1 in
      h1 <- cell_value_ip t indices_1 ;;
      let d1 := distance_p ll_centre_1 latitude longitude in
      (* move down => increment first index *)
      let indices_2 := ((fst indices_0 + 1)%Z, snd indices_0) in
      let ll_centre_2 := cell_centre_ip t indices_2 in
      h2 <- cell_value_ip t indices_2 ;;
      let d2 := distance_p ll_centre_2 latitude longitude in
      (* move down and to the right *)
      let indices_3 := ((fst indices_0 + 1)%Z, (snd indices_0 + 1)%Z) in
      let ll_centre_3 := cell_centre_ip t indices_3 in
      h3 <- cell_value_ip t indices_3 ;;
      let d3 := distance_p ll_centre_3 latitude longitude in
      let '(h, inv_d) := mean_loop_all [h0; h1; h2; h3] [d0; d1; d2; d3] in
      if inv_d =? of_int 0
      then Throw GRID_FLOAT_NODATA (insufficient "Q4" latitude longitude)
      else
        let rv := h / inv_d in
        Ok (to_float rv)
  end.

End Interpolation.

(** ** Tile identity and naming *)

Local Open Scope string_scope.

(** <<to_string(const T val)>> at [int]: [ostringstream << val]. *)
Definition to_string (val : Z) : string :=
  DecimalString.NilZero.string_of_int (Z.to_int val).

Inductive pad_direction : Type := PAD_LEFT | PAD_RIGHT.

(** <<create_string(const char c, const int n)>>, for a count [n] from 0 to
    [INT_MAX]. *)
Fixpoint create_string (c : ascii) (n : nat) : string :=
  match n with
  | O => EmptyString
  | S n' => String c (create_string c n')
  end.

Definition pad_string (s : string) (len : nat) (pad_side : pad_direction)
    (pad_char : ascii) : string :=
  let rv := s in
  if (len <=? String.length rv)%nat then rv
  else
    let n_pad_chars := (len - String.length rv)%nat in
    let pad := create_string pad_char n_pad_chars in
    match pad_side with
    | PAD_LEFT => pad ++ rv
    | PAD_RIGHT => rv ++ pad
    end.

(** <<base_filename(const int llcode)>>: [/] and [%] on [int] truncate. *)
Definition base_filename (llcode : Z) : string :=
  let lat_string := pad_string (to_string (Z.quot llcode 1000)) 2 PAD_LEFT "0" in
  let long_string := pad_string (to_string (Z.rem llcode 1000)) 3 PAD_LEFT "0" in
  "n" ++ lat_string ++ "w" ++ long_string.

(** [std::string::substr(pos, len)]: [None] is the [std::out_of_range] it
    throws when [pos] is beyond the end. *)
Definition substr (s : string) (pos len : nat) : option string :=
  if (pos <=? String.length s)%nat then Some (substring pos len s) else None.

Definition INT_MAX : Z := 2147483647.
Definition INT_MIN : Z := -2147483648.

Definition is_space (c : ascii) : bool :=
  let n := nat_of_ascii c in
  (n =? 32)%nat || ((9 <=? n)%nat && (n <=? 13)%nat).

Definition digit_of (c : ascii) : option Z :=
  let n := nat_of_ascii c in
  if ((48 <=? n)%nat && (n <=? 57)%nat) then Some (Z.of_nat (n - 48)) else None.

Fixpoint skip_space (s : string) : string :=
  match s with
  | String c r => if is_space c then skip_space r else s
  | EmptyString => s
  end.

(** The digits at the head of [s], as a number; [acc] when there is none. *)
Fixpoint read_digits (s : string) (acc : Z) : Z :=
  match s with
  | String c r =>
      match digit_of c with
      | Some d => read_digits r (acc * 10 + d)
      | None => acc
      end
  | EmptyString => acc
  end.

(** <<from_string<int>(const std::string& s)>>: [stream >> t] skips white
    space, reads a sign and the digits that follow, stores 0 when there is no
    digit, and the nearest bound of [int] when the number does not fit.  On
    a string that is empty or all white space the stream reads nothing and
    the source returns [t] as it was declared, without a value: the 0 given
    here stands for the program on the other strings only, those that
    [has_token] accepts. *)
Definition from_string (s : string) : Z :=
  let clamp v := Z.max INT_MIN (Z.min INT_MAX v) in
  match skip_space s with
  | String "-" r => clamp (- read_digits r 0)
  | String "+" r => clamp (read_digits r 0)
  | r => clamp (read_digits r 0)
  end.

(** The strings on which [stream >> t] finds something to read: those with
    a character that is not white space. *)
Definition has_token (s : string) : bool :=
  match skip_space s with
  | EmptyString => false
  | String _ _ => true
  end.

(** <<llc(const std::string& basefilename)>>, "nLLwLLL" *)
Definition llc_of_name (basefilename : string) : option Z :=
  match substr basefilename 1 2, substr basefilename 4 3 with
  | Some lat, Some long => Some (from_string lat * 1000 + from_string long)
  | _, _ => None
  end.

Section TileCode.
Context {D : Type} {AR : Arith D}.
Local Open Scope num_scope.

(** <<llc(const double& latitude, const double& longitude)>>.  The source
    computes in [int]; the value here, in [Z], is the source's where
    [llc_defined] holds. *)
Definition llc (latitude longitude : D) : Z :=
  (to_int (latitude + of_int 1)%num * 1000
   + to_int (- (longitude - of_int 1))%num)%Z.

(** The values of [int]. *)
Definition in_int (z : Z) : bool := ((INT_MIN <=? z) && (z <=? INT_MAX))%Z.

(** [int(x)] has a value when [x], cut toward zero, is a value of [int]:
    when [INT_MIN - 1 < x < INT_MAX + 1]. *)
Definition int_cast_defined (x : D) : bool :=
  (of_int (INT_MIN - 1) <? x) && (x <? of_int (INT_MAX + 1)).

(** Where [llc] stays in [int]: both casts have a value, and neither the
    product by 1000 nor the sum overflows. *)
Definition llc_defined (latitude longitude : D) : bool :=
  int_cast_defined (latitude + of_int 1)
  && int_cast_defined (- (longitude - of_int 1))
  && in_int (to_int (latitude + of_int 1) * 1000)
  && in_int (llc latitude longitude).

(** The tile code as the specification words it:
    [floor(latitude+1)*1000 + floor(-(longitude-1))]. *)
Definition llc_spec (latitude longitude : D) : Z :=
  (floor (latitude + of_int 1)%num * 1000
   + floor (- (longitude - of_int 1))%num)%Z.

End TileCode.

(** <<last_char>>: [None] is the [string_function_error] it throws when the
    string is empty. *)
Definition last_char (cs : string) : option ascii :=
  if (String.length cs =? 0)%nat then None
  else String.get (String.length cs - 1) cs.

(** <<dirname_with_slash>> *)
Definition dirname_with_slash (dirname : string) : option string :=
  match last_char dirname with
  | Some c => Some (dirname ++ (if Ascii.eqb c "/" then "" else "/"))
  | None => None
  end.

(** <<local_header_filename(const int llcode, const std::string& directory)>> *)
Definition local_header_filename (llcode : Z) (directory : string)
  : option string :=
  match dirname_with_slash directory with
  | Some d => Some (d ++ "usgs_ned_13_" ++ base_filename llcode ++ "_gridfloat.hdr")
  | None => None
  end.

(** <<local_data_filename(const int llcode, const std::string& directory)>> *)
Definition local_data_filename (llcode : Z) (directory : string)
  : option string :=
  match dirname_with_slash directory with
  | Some d => Some (d ++ "usgs_ned_13_" ++ base_filename llcode ++ "_gridfloat.flt")
  | None => None
  end.

(** ** Tile fetcher *)

(** What a run leaves behind, in order: lines written to [cout] and [cerr],
    commands handed to [system], and the system calls of [diskfile.cpp]. *)
Inductive event : Type :=
| Cout (line : string)
| Cerr (line : string)
| System (command : string)
| Mkdir (dirname : string)
| Unlink (filename : string).

(** How a call ends: it returns, the process exits, or an exception leaves it. *)
Inductive ending (A : Type) : Type :=
| Done (a : A)
| Exited (status : Z)
| Thrown.

Arguments Done {A} _.
Arguments Exited {A} _.
Arguments Thrown {A}.

Section Fetch.
(** The operating system, outside the repository: the states of its file
    system, what opening a file for reading and [stat] observe, and what
    [mkdir], [unlink] and a shell command do to it. *)
Variable FS : Type.
(** [ifstream(filename)]: the size of the file when it opens for reading *)
Variable os_open : FS -> string -> option N.
(** [stat]: [Some true] a directory, [Some false] something else, [None] failure *)
Variable os_stat : FS -> string -> option bool.
(** [mkdir]: the status it returns and the file system after it *)
Variable os_mkdir : string -> FS -> Z * FS.
Variable os_unlink : string -> FS -> FS.
Variable os_system : string -> FS -> FS.
(** <<extern bool debug;>> *)
Variable debug : bool.

Record world : Type := mk_world
  { fs : FS;
    trace : list event }.

Definition M (A : Type) : Type := world -> ending A * world.

Definition ret {A} (a : A) : M A := fun w => (Done a, w).

Definition bindM {A B} (m : M A) (k : A -> M B) : M B :=
  fun w => match m w with
           | (Done a, w') => k a w'
           | (Exited s, w') => (Exited s, w')
           | (Thrown, w') => (Thrown, w')
           end.

Notation "x <~ m ;; k" := (bindM m (fun x => k))
  (at level 61, m at next level, right associativity).
Notation "m ;;; k" := (bindM m (fun _ => k))
  (at level 61, right associativity).

Definition emit (e : event) : M unit :=
  fun w => (Done tt, {| fs := fs w; trace := trace w ++ [e] |}).

Definition exit {A} (status : Z) : M A := fun w => (Exited status, w).
Definition throw {A} : M A := fun w => (Thrown, w).
Definition when (b : bool) (m : M unit) : M unit := if b then m else ret tt.

(** <<file_exists>>: [std::ifstream(filename).good()] *)
Definition file_exists (filename : string) : M bool :=
  fun w => (Done (match os_open (fs w) filename with
                  | Some _ => true
                  | None => false
                  end), w).

Definition file_size (filename : string) : M N :=
  fun w => (Done (match os_open (fs w) filename with
                  | Some n => n
                  | None => 0%N
                  end), w).

Definition file_empty (filename : string) : M bool :=
  n <~ file_size filename ;; ret (n =? 0)%N.

Definition file_delete (filename : string) : M unit :=
  e <~ file_exists filename ;;
  when e (fun w => (Done tt, {| fs := os_unlink filename (fs w);
                                trace := trace w ++ [Unlink filename] |})).

Definition directory_create (dirname : string) : M unit :=
  status <~ (fun w => let '(st, s') := os_mkdir dirname (fs w) in
                      (Done st, {| fs := s'; trace := trace w ++ [Mkdir dirname] |})) ;;
  if (status =? 0)%Z then ret tt else throw.

Definition directory_exists (filename : string) : M bool :=
  fun w => (Done (match os_stat (fs w) filename with
                  | Some is_dir => is_dir
                  | None => false
                  end), w).

Definition directory_create_if_necessary (dirname : string) : M unit :=
  e <~ directory_exists dirname ;;
  when (negb e) (directory_create dirname).

(** <<system(command.c_str())>> *)
Definition system (command : string) : M unit :=
  fun w => (Done tt, {| fs := os_system command (fs w);
                        trace := trace w ++ [System command] |}).

(** A call that returns a value or throws. *)
Definition lift {A} (v : option A) : M A :=
  match v with
  | Some a => ret a
  | None => throw
  end.

(** The download loop,
    <<for (unsigned int n = 0; !downloaded and n < remote_filenames.size(); ++n)>>,
    from step [n] with the names still to try; it returns [downloaded]. *)
Fixpoint download_loop (remote_directory local_filename : string)
    (remote_filenames : list string) (n : Z) : M bool :=
  match remote_filenames with
  | [] => ret false
  | remote_filename :: rest =>
      e <~ file_exists local_filename ;;
      when (negb e)
        (emit (Cout ("File " ++ local_filename
                     ++ " does not exist; download attempt number "
                     ++ to_string (n + 1))) ;;;
         let command := "wget -q -O " ++ local_filename ++ " "
                        ++ remote_directory ++ remote_filename in
         when debug (emit (Cout ("command = ***" ++ command ++ "***"))) ;;;
         system command) ;;;
      empty <~ file_empty local_filename ;;
      if empty
      then file_delete local_filename ;;;
           download_loop remote_directory local_filename rest (n + 1)
      else ret true
  end.

(** Unpack one member of the archive under its default name, or under the
    alternative name and move it into place: the two blocks after the
    download, one for the header and one for the data. *)
Definition unpack (What what local_directory local_dirname local_filename
                   default_name alternative_name : string) : M unit :=
  system ("unzip -qq -o -d " ++ local_directory ++ " " ++ local_filename
          ++ " " ++ default_name) ;;;
  e <~ file_exists (local_dirname ++ default_name) ;;
  when (negb e)
    (when debug (emit (Cout (What ++ " file " ++ local_dirname ++ default_name
                             ++ " does not exist; trying alternative name"))) ;;;
     system ("unzip -qq -o -d " ++ local_directory ++ " " ++ local_filename
             ++ " " ++ alternative_name) ;;;
     e' <~ file_exists (local_dirname ++ alternative_name) ;;
     (if e' then ret tt
      else emit (Cerr ("Alternative " ++ what ++ " file " ++ local_dirname
                       ++ alternative_name ++ " does not exist; exiting")) ;;;
           exit (-1)) ;;;
     system ("mv " ++ local_dirname ++ alternative_name ++ " "
             ++ local_dirname ++ default_name)).

Definition download_if_necessary (llc : Z) (local_directory : string) : M unit :=
  c <~ lift (last_char local_directory) ;;
  let local_dirname :=
    local_directory ++ (if Ascii.eqb c "/" then "" else "/") in
  let full_header_name :=
    local_dirname ++ "usgs_ned_13_" ++ base_filename llc ++ "_gridfloat.hdr" in
  let full_data_name :=
    local_dirname ++ "usgs_ned_13_" ++ base_filename llc ++ "_gridfloat.flt" in
  header_exists <~ file_exists full_header_name ;;
  header_empty <~ file_empty full_header_name ;;
  data_exists <~ file_exists full_data_name ;;
  data_empty <~ file_empty full_data_name ;;
  let need_to_download :=
    negb header_exists || header_empty || negb data_exists || data_empty in
  if negb need_to_download then ret tt
  else
    directory_create_if_necessary local_directory ;;;
    let remote_directory :=
      "https://prd-tnm.s3.amazonaws.com/StagedProducts/Elevation/13/GridFloat/" in
    let remote_filenames :=
      [ "USGS_NED_13_" ++ base_filename llc ++ "_GridFloat.zip";
        base_filename llc ++ ".zip" ] in
    let local_filename := local_dirname ++ base_filename llc ++ ".zip" in
    downloaded <~ download_loop remote_directory local_filename remote_filenames 0 ;;
    emit (Cout (if downloaded then "Download succeeded"
                else "Download did not succeed")) ;;;
    (if downloaded then ret tt
     else emit (Cerr "download failed; exiting") ;;; exit (-1)) ;;;
    unpack "Header" "header" local_directory local_dirname local_filename
      ("usgs_ned_13_" ++ base_filename llc ++ "_gridfloat.hdr")
      ("float" ++ base_filename llc ++ "_13.hdr") ;;;
    unpack "Data" "data" local_directory local_dirname local_filename
      ("usgs_ned_13_" ++ base_filename llc ++ "_gridfloat.flt")
      ("float" ++ base_filename llc ++ "_13.flt").

End Fetch.

(** ** The two readings of [double] *)

(** IEEE 754 binary64, as the compiled program computes. *)
Module Double.

Definition double_of_int (z : Z) : float :=
  if (z <? 0)%Z
  then PrimFloat.opp (PrimFloat.of_uint63 (Uint63.of_Z (- z)))
  else PrimFloat.of_uint63 (Uint63.of_Z z).

(** The integer part of a finite [m * 2^e], toward zero: the mantissa
    shifted by the exponent, with the sign put back. *)
Definition trunc_sf (x : spec_float) : Z :=
  match x with
  | S754_finite s m e =>
      cond_Zopp s (if (0 <=? e)%Z then Z.shiftl (Zpos m) e
                   else Z.shiftr (Zpos m) (- e))
  | _ => 0
  end.

(** The largest integer not above a finite [m * 2^e]: the signed mantissa
    shifted by the exponent (a right shift of a negative number rounds
    down). *)
Definition floor_sf (x : spec_float) : Z :=
  match x with
  | S754_finite s m e =>
      if (0 <=? e)%Z then Z.shiftl (cond_Zopp s (Zpos m)) e
      else Z.shiftr (cond_Zopp s (Zpos m)) (- e)
  | _ => 0
  end.

(** Rounding to binary32 (24 bits of mantissa, infinities at exponent 128),
    to nearest, ties to even. *)
Definition round_float (x : float) : float :=
  match Prim2SF x with
  | S754_finite s m e =>
      SF2Prim (binary_normalize 24 128 (cond_Zopp s (Zpos m)) e s)
  | _ => x
  end.

#[global] Instance arith : Arith float :=
  {| add := PrimFloat.add;
     sub := PrimFloat.sub;
     mul := PrimFloat.mul;
     div := PrimFloat.div;
     opp := PrimFloat.opp;
     sqrt := PrimFloat.sqrt;
     ltb := PrimFloat.ltb;
     leb := PrimFloat.leb;
     eqb := PrimFloat.eqb;
     of_int := double_of_int;
     to_int := fun x => trunc_sf (Prim2SF x);
     to_float := round_float;
     floor := fun x => floor_sf (Prim2SF x) |}.

End Double.

(** Exact real arithmetic: what the program computes when no operation
    rounds.  [float] and [double] are both [R]; there is no NaN, and the
    square root of a negative number is 0.  A statement at this instance
    says what the formulas of the program give; it is a statement about the
    compiled program only where rounding does not change the outcome. *)
Module Real.

Definition trunc (x : R) : Z :=
  if Rle_dec 0 x then Int_part x else (- Int_part (- x))%Z.

Definition arctan2 (y x : R) : R :=
  if Rlt_dec 0 x then atan (y / x)
  else if Rlt_dec x 0 then
         if Rle_dec 0 y then atan (y / x) + Rtrigo1.PI
         else atan (y / x) - Rtrigo1.PI
  else if Rlt_dec 0 y then Rtrigo1.PI / 2
  else if Rlt_dec y 0 then - (Rtrigo1.PI / 2)
  else 0.

#[global] Instance arith : Arith R :=
  {| add := Rplus;
     sub := Rminus;
     mul := Rmult;
     div := Rdiv;
     opp := Ropp;
     sqrt := R_sqrt.sqrt;
     ltb := fun x y => if Rlt_dec x y then true else false;
     leb := fun x y => if Rle_dec x y then true else false;
     eqb := fun x y => if Req_dec_T x y then true else false;
     of_int := IZR;
     to_int := trunc;
     to_float := fun x => x;
     floor := Int_part |}.

#[global] Instance libm : Libm R :=
  {| sin := Rtrigo_def.sin;
     cos := Rtrigo_def.cos;
     asin := Ratan.asin;
     atan2 := arctan2 |}.

End Real.

(** ** Further functions of [grid_float.h] and [grid_float.cpp] *)

Section Curvature.
Context {D : Type} {AR : Arith D} {LM : Libm D}.
Local Open Scope num_scope.

(** <<curvature_correction(const double& d)>> *)
Definition curvature_correction (d : D) : D :=
  (of_int 1 - cos (d / RE)) * RE.

End Curvature.

(** [std::atan] at [float], the overload that [bearing] calls, beside the
    functions of [Libm]. *)
Class Libmf (D : Type) := { atanf : D -> D }.

#[global] Instance real_libmf : Libmf R := {| atanf := Ratan.atan |}.

Section Bearing.
Context {D : Type} {AR : Arith D} {LF : Libmf D}.
Local Open Scope num_scope.

(** [(float)n / (float)m]: the quotient of two [float]s is a [float]. *)
Definition float_ratio (n m : Z) : D :=
  to_float (to_float (of_int n) / to_float (of_int m)).

(** <<bearing(const int delta_x, const int delta_y)>>; [abs] is the one of
    [int], which [Z.abs] is for the arguments above [INT_MIN]. *)
Definition bearing (delta_x delta_y : Z) : D :=
  if ((delta_x =? 0) && (delta_y =? 0))%Z then of_int 0
  else if (delta_x =? 0)%Z then
    if (delta_y >? 0)%Z then of_int 0 else of_int 180
  else if (delta_y =? 0)%Z then
    if (delta_x <? 0)%Z then of_int 270 else of_int 90
  else if ((delta_x >? 0) && (delta_y >? 0))%Z then          (* 0 -- 90 *)
    if (delta_y >? delta_x)%Z
    then atanf (float_ratio delta_x delta_y) * RTOD
    else of_int 90 - atanf (float_ratio delta_y delta_x) * RTOD
  else if ((delta_x >? 0) && (delta_y <? 0))%Z then          (* 90 -- 180 *)
    if (Z.abs delta_x >? Z.abs delta_y)%Z
    then of_int 90 + atanf (float_ratio (Z.abs delta_y) (Z.abs delta_x)) * RTOD
    else of_int 180 - atanf (float_ratio (Z.abs delta_x) (Z.abs delta_y)) * RTOD
  else if ((delta_x <? 0) && (delta_y <? 0))%Z then          (* 180 -- 270 *)
    if (Z.abs delta_x <? Z.abs delta_y)%Z
    then of_int 180 + atanf (float_ratio (Z.abs delta_x) (Z.abs delta_y)) * RTOD
    else of_int 270 - atanf (float_ratio (Z.abs delta_y) (Z.abs delta_x)) * RTOD
  else                                                        (* 270 -- 0 *)
    if (Z.abs delta_x >? Z.abs delta_y)%Z
    then of_int 270 + atanf (float_ratio (Z.abs delta_y) (Z.abs delta_x)) * RTOD
    else of_int 360 - atanf (float_ratio (Z.abs delta_x) (Z.abs delta_y)) * RTOD.

End Bearing.

Section TileNames.
Context {D : Type} {AR : Arith D}.
Local Open Scope num_scope.

(** <<base_filename(const double& latitude, const double& longitude)>>: the
    latitude part is not padded. *)
Definition base_filename_ll (latitude longitude : D) : string :=
  let lat_string := to_string (to_int (latitude + of_int 1)) in
  let long_string :=
    pad_string (to_string (to_int (- longitude + of_int 1))) 3 PAD_LEFT "0" in
  "n" ++ lat_string ++ "w" ++ long_string.

End TileNames.

(** <<local_tile_filename(const int llcode, const std::string& directory)>> *)
Definition local_tile_filename (llcode : Z) (directory : string)
  : option string :=
  match dirname_with_slash directory with
  | Some d => Some (d ++ base_filename llcode ++ ".zip")
  | None => None
  end.

(** ** The header of a tile *)

(** <<split_string(const string& cs, const string& separator)>>: the loop
    <<while (start_posn < cs.length())>>, run for at most [fuel] rounds from
    [start_posn] with [rv] collected so far; [None] when the rounds run out.
    [index] is [std::string::find]. *)
Fixpoint split_string_from (fuel : nat) (cs separator : string)
    (start_posn : nat) (rv : list string) : option (list string) :=
  match fuel with
  | O => None
  | S fuel' =>
      if (start_posn <? String.length cs)%nat then
        match index start_posn separator cs with
        | None =>                                   (* no more separators *)
            Some (rv ++ [substring start_posn
                           (String.length cs - start_posn) cs])%list
        | Some posn =>                              (* at least one separator *)
            split_string_from fuel' cs separator
              (posn + String.length separator)
              (rv ++ [substring start_posn (posn - start_posn) cs])%list
        end
      else Some rv
  end.

(** One round more than the string has characters: enough whenever the
    separator is not empty. *)
Definition split_string (cs separator : string) : option (list string) :=
  split_string_from (S (String.length cs)) cs separator 0 [].

(** <<remove_char(const string& cs, const char char_to_remove)>> *)
Fixpoint remove_char (cs : string) (char_to_remove : ascii) : string :=
  match cs with
  | EmptyString => EmptyString
  | String ch rest =>
      if Ascii.eqb ch char_to_remove then remove_char rest char_to_remove
      else String ch (remove_char rest char_to_remove)
  end.

(** <<transform_string>>: [pf] applied to each character *)
Fixpoint transform_string (cs : string) (pf : ascii -> ascii) : string :=
  match cs with
  | EmptyString => EmptyString
  | String ch rest => String (pf ch) (transform_string rest pf)
  end.

(** [std::toupper] in the "C" locale, the one the program runs in. *)
Definition toupper (ch : ascii) : ascii :=
  let n := nat_of_ascii ch in
  if ((97 <=? n) && (n <=? 122))%nat then ascii_of_nat (n - 32) else ch.

(** <<to_upper(const std::string& cs)>> *)
Definition to_upper (cs : string) : string := transform_string cs toupper.

(** [std::unique] with the predicate [both_match] of [squash], after the
    character [kept] that was kept last. *)
Fixpoint unique_after (kept : ascii) (rest : string) (c : ascii) : string :=
  match rest with
  | EmptyString => EmptyString
  | String ch rest' =>
      if Ascii.eqb kept ch && Ascii.eqb kept c
      then unique_after kept rest' c
      else String ch (unique_after ch rest' c)
  end.

(** <<squash(const string& cs, const char c)>> *)
Definition squash (cs : string) (c : ascii) : string :=
  match cs with
  | EmptyString => EmptyString
  | String ch rest => String ch (unique_after ch rest c)
  end.

Definition EOL : string := String (ascii_of_nat 10) "".
Definition CR_CHAR : ascii := ascii_of_nat 13.

(** <<to_lines(const std::string& cs, const std::string& eol_marker = EOL)>> *)
Definition to_lines (cs : string) : option (list string) := split_string cs EOL.

(** The members the header sets; each starts at zero, [_byte_order] empty. *)
Record header_fields (D : Type) : Type := mk_header
  { hf_n_columns : Z;
    hf_n_rows : Z;
    hf_xllcorner : D;
    hf_yllcorner : D;
    hf_cellsize : D;
    hf_nodata_value : Z;
    hf_nodata : Z;
    hf_byte_order : string }.

Arguments mk_header {D} _ _ _ _ _ _ _ _.
Arguments hf_n_columns {D} _.
Arguments hf_n_rows {D} _.
Arguments hf_xllcorner {D} _.
Arguments hf_yllcorner {D} _.
Arguments hf_cellsize {D} _.
Arguments hf_nodata_value {D} _.
Arguments hf_nodata {D} _.
Arguments hf_byte_order {D} _.

Section Header.
Context {D : Type} {AR : Arith D}.
(** <<from_string<double>>>: [stream >> t] of the C++ library at [double]. *)
Variable from_string_double : string -> D.

(** The body of <<for (const string& line : header_lines)>>. *)
Definition header_line (h : header_fields D) (line : string)
  : outcome D (header_fields D) :=
  match split_string line " " with
  | None => Undefined
  | Some fields =>
      if negb (List.length fields =? 2)%nat then Exit (-1)
      else
        let f0 := nth 0 fields "" in
        let f1 := nth 1 fields "" in
        let '(mk_header nc nr x y cs nv nd bo) := h in
        let nc := if String.eqb f0 "NCOLS" then from_string f1 else nc in
        let nr := if String.eqb f0 "NROWS" then from_string f1 else nr in
        let x := if String.eqb f0 "XLLCORNER" then from_string_double f1 else x in
        let y := if String.eqb f0 "YLLCORNER" then from_string_double f1 else y in
        let cs := if String.eqb f0 "CELLSIZE" then from_string_double f1 else cs in
        let nv := if String.eqb f0 "NODATA_VALUE" then from_string f1 else nv in
        let nd := if String.eqb f0 "NODATA" then from_string f1 else nd in
        let bo := if String.eqb f0 "BYTEORDER" then f1 else bo in
        Ok (mk_header nc nr x y cs nv nd bo)
  end.

Fixpoint header_loop (h : header_fields D) (header_lines : list string)
  : outcome D (header_fields D) :=
  match header_lines with
  | [] => Ok h
  | line :: rest => h' <- header_line h line ;; header_loop h' rest
  end.

(** The lines of a header file, as the constructor takes them from its
    content. *)
Definition header_lines_of (content : string) : option (list string) :=
  to_lines (squash (to_upper (remove_char content CR_CHAR)) " ").

(** "import the header data" *)
Definition import_header (content : string) : outcome D (header_fields D) :=
  match header_lines_of content with
  | None => Undefined
  | Some header_lines =>
      header_loop (mk_header 0 0 (of_int 0) (of_int 0) (of_int 0) 0 0 "")
        header_lines
  end.

(** <<grid_float_tile(header_filename, data_filename, small_memory)>> on
    the contents of the two files, [None] for a file that does not exist. *)
Definition new_tile (header : option string) (data : option (list D))
    (small_memory : bool) : outcome D (grid_float_tile D) :=
  match header with
  | None => Exit (-1)
  | Some content =>
      match data with
      | None => Exit (-1)
      | Some file =>
          h <- import_header content ;;
          Ok (construct (hf_n_columns h) (hf_n_rows h) (hf_xllcorner h)
                (hf_yllcorner h) (hf_cellsize h) (hf_nodata_value h)
                (hf_nodata h) small_memory file)
      end
  end.

End Header.

(** ** What the specification words say, as definitions *)

Section Specification.
Context {D : Type} {AR : Arith D} {LM : Libm D}.
Local Open Scope num_scope.

(** [sum] adds from the left, starting at zero. *)
Definition sum (l : list D) : D := fold_left add l (of_int 0).

(** The weight sum [sum(1/distance_i)] over cells given as
    (height, distance) pairs. *)
Definition idw_weight (cells : list (D * D)) : D :=
  sum (map (fun c => of_int 1 / snd c) cells).

(** The inverse-distance-weighted mean
    [sum(height_i / distance_i) / sum(1/distance_i)]. *)
Definition idw_mean (cells : list (D * D)) : D :=
  sum (map (fun c => fst c / snd c) cells) / idw_weight cells.

(** The three neighbours of a cell in the direction of a quadrant: beside
    it, above or below it, and diagonal.  Rows grow southward, columns
    eastward. *)
Definition neighbours (q : QUADRANT) (i0 : Z * Z) : list (Z * Z) :=
  let '(r, c) := i0 in
  match q with
  | Q0 => []
  | Q1 => [(r, c + 1); (r - 1, c); (r - 1, c + 1)]%Z
  | Q2 => [(r, c - 1); (r - 1, c); (r - 1, c - 1)]%Z
  | Q3 => [(r, c - 1); (r + 1, c); (r + 1, c - 1)]%Z
  | Q4 => [(r, c + 1); (r + 1, c); (r + 1, c + 1)]%Z
  end.

Definition quadrant_name (q : QUADRANT) : string :=
  match q with
  | Q0 => "Q0" | Q1 => "Q1" | Q2 => "Q2" | Q3 => "Q3" | Q4 => "Q4"
  end.

(** Read the cells of a list of index pairs, in order. *)
Fixpoint read_cells (t : grid_float_tile D) (ips : list (Z * Z))
  : outcome D (list D) :=
  match ips with
  | [] => Ok []
  | ip :: rest =>
      h <- cell_value_ip t ip ;;
      hs <- read_cells t rest ;;
      Ok (h :: hs)
  end.

(** Interpolation in quadrant [q] as the specification describes it: the
    query cell and its three quadrant neighbours, each with the distance
    from its centre to the point; the weighted mean of the cells that count
    ([filtered]: only those of valid height); the NODATA error when the
    weight sum is zero. *)
Definition idw_interpolation (t : grid_float_tile D) (q : QUADRANT)
    (filtered : bool) (latitude longitude : D) : outcome D D :=
  let i0 := index_pair t latitude longitude in
  h0 <- cell_value t latitude longitude ;;
  hs <- read_cells t (neighbours q i0) ;;
  let centres := cell_centre t latitude longitude
                 :: map (cell_centre_ip t) (neighbours q i0) in
  let distances := map (fun c => distance_p c latitude longitude) centres in
  let cells := combine (h0 :: hs) distances in
  let counted := if filtered
                 then filter (fun c => valid_height t (fst c)) cells
                 else cells in
  if idw_weight counted =? of_int 0
  then Throw GRID_FLOAT_NODATA (insufficient (quadrant_name q) latitude longitude)
  else Ok (to_float (idw_mean counted)).

End Specification.

(** ** Laws of the arithmetic

    What the proofs below use of [double]: how the comparisons relate, and
    that truncation and [floor] agree from zero upward.  [x =? x] says that
    [x] is a number (it fails for an IEEE NaN only). *)

Class ArithLaws (D : Type) {AR : Arith D} : Prop :=
  { ltb_leb_false : forall x y : D, (y <=? x)%num = true -> (x <? y)%num = false;
    ltb_asym : forall x y : D, (x <? y)%num = true -> (y <? x)%num = false;
    leb_total : forall x y : D,
        (x =? x)%num = true -> (y =? y)%num = true ->
        (x <=? y)%num = false -> (y <=? x)%num = true;
    to_int_floor : forall x : D,
        (of_int 0 <=? x)%num = true -> to_int x = floor x }.

(** ** Sample tiles *)

Module Samples.

(** Binary64: a 2 x 2 tile with its lower left corner at 40 N, 106 W and
    cells of half a degree; rows [1 2] and [3 4]. *)
Definition edge_tile (small_memory : bool) : grid_float_tile float :=
  construct 2 2 (of_int (-106)) (of_int 40) (dec 5 1) (-9999) (-9999)
    small_memory (map of_int [1; 2; 3; 4]).





(** Binary64: a 2 x 2 grid of unit cells with its corner at 1e17, far
    outside any latitude. *)
Definition far_tile : grid_float_tile float :=
  construct 2 2 (of_int 0) (of_int (10 ^ 17)) (of_int 1) (-9999) (-9999)
    false (map of_int [1; 2; 3; 4]).

(** Exact arithmetic: a 3 x 3 tile of one-degree cells with its lower left
    corner at 40 N, 106 W, every cell holding [height]. *)
Definition flat_tile (height : Z) : grid_float_tile R :=
  construct 3 3 (IZR (-106)) (IZR 40) (IZR 1) (-9999) (-9999) false
    (repeat (IZR height) 9).

End Samples.

(** * Theorems *)

(** ** Interpolation: the weighted mean of each quadrant *)

Section InterpolationFacts.
Context {D : Type} {AR : Arith D} {LM : Libm D}.
Local Open Scope num_scope.

Variable t : grid_float_tile D.

Lemma bind_Ok {A B : Type} (a : A) (k : A -> outcome D B) :
  bind (Ok a) k = k a.
Proof. reflexivity. Qed.

(** The Q1 loop adds exactly the cells that [filter] keeps, in order. *)
Lemma mean_loop_valid_filter (h0 h1 h2 h3 d0 d1 d2 d3 : D) :
  let cells := [(h0, d0); (h1, d1); (h2, d2); (h3, d3)] in
  let counted := filter (fun c => valid_height t (fst c)) cells in
  mean_loop_valid t [h0; h1; h2; h3] [d0; d1; d2; d3]
  = (sum (map (fun c => fst c / snd c) counted), idw_weight counted).
Proof.
  unfold mean_loop_valid, idw_weight, sum; simpl.
  destruct (valid_height t h0), (valid_height t h1),
           (valid_height t h2), (valid_height t h3); reflexivity.
Qed.

(** The loop of the other quadrants adds all four cells. *)
Lemma mean_loop_all_cells (h0 h1 h2 h3 d0 d1 d2 d3 : D) :
  let cells := [(h0, d0); (h1, d1); (h2, d2); (h3, d3)] in
  mean_loop_all [h0; h1; h2; h3] [d0; d1; d2; d3]
  = (sum (map (fun c => fst c / snd c) cells), idw_weight cells).
Proof. reflexivity. Qed.

(** The reads of the neighbours, one at a time: a read that fails ends the
    call on both sides. *)
Ltac read_neighbour :=
  match goal with
  | |- context [bind (cell_value_ip ?t ?i) _] =>
      destruct (cell_value_ip t i);
      [ rewrite !bind_Ok | reflexivity .. ]
  end.

(** The Q1 case: the mean over the cells of valid height. *)
Lemma interpolated_value_Q1 (latitude longitude : D) :
  _quadrant t latitude longitude = Q1 ->
  interpolated_value t latitude longitude
  = idw_interpolation t Q1 true latitude longitude.
Proof.
  intros Hq. unfold interpolated_value, idw_interpolation. rewrite Hq.
  unfold index_pair, neighbours; cbn [fst snd read_cells].
  destruct (cell_value t latitude longitude);
    [ rewrite !bind_Ok | reflexivity .. ].
  do 3 read_neighbour. cbn [map combine].
  rewrite mean_loop_valid_filter. cbv zeta. unfold idw_mean.
  match goal with
  | |- context [eqb ?w (of_int 0)] => destruct (eqb w (of_int 0))
  end; reflexivity.
Qed.

(** C2.  In each quadrant other than Q0, [interpolated_value] is the
    inverse-distance-weighted mean [sum(height_i / distance_i) /
    sum(1 / distance_i)] over the query cell and its three quadrant
    neighbours (with the NODATA error when the weight sum is zero): in Q1
    over the cells of valid height only, in Q2, Q3 and Q4 over all four
    cells, unfiltered. *)
Theorem interpolated_value_weighted_mean (latitude longitude : D) :
  match _quadrant t latitude longitude with
  | Q0 => True
  | Q1 => interpolated_value t latitude longitude
          = idw_interpolation t Q1 true latitude longitude
  | Q2 => interpolated_value t latitude longitude
          = idw_interpolation t Q2 false latitude longitude
  | Q3 => interpolated_value t latitude longitude
          = idw_interpolation t Q3 false latitude longitude
  | Q4 => interpolated_value t latitude longitude
          = idw_interpolation t Q4 false latitude longitude
  end.
Proof.
  destruct (_quadrant t latitude longitude) eqn:Hq;
    [ exact I | exact (interpolated_value_Q1 _ _ Hq) | | | ];
    unfold interpolated_value, idw_interpolation; rewrite Hq;
    unfold index_pair, neighbours; cbn [fst snd read_cells];
    (destruct (cell_value t latitude longitude);
     [ rewrite !bind_Ok | reflexivity .. ]);
    do 3 read_neighbour; cbn [map combine];
    rewrite mean_loop_all_cells; reflexivity.
Qed.

End InterpolationFacts.

(** ** Quadrants: the centre case and the ties *)

Section QuadrantFacts.
Context {D : Type} {AR : Arith D} {LM : Libm D} {AL : ArithLaws D}.
Local Open Scope num_scope.

Variable t : grid_float_tile D.

Lemma leb_refl (x : D) : (x =? x) = true -> (x <=? x) = true.
Proof.
  intros Hx. destruct (x <=? x) eqn:E; [reflexivity | ].
  pose proof (leb_total x x Hx Hx E) as H. congruence.
Qed.

Lemma quadrant_Q0 (latitude longitude : D) :
  (distance_p (cell_centre t latitude longitude) latitude longitude
     <? of_int 1) = true ->
  _quadrant t latitude longitude = Q0.
Proof. intros Hd. unfold _quadrant. rewrite Hd. reflexivity. Qed.

(** C3.  At an in-tile point within one metre of the centre of its cell,
    [interpolated_value] returns the raw cell value when that value is at
    least -9000, and throws the NODATA error when it is below -9000. *)
Theorem interpolated_value_near_centre (latitude longitude cv : D) :
  is_in_tile t latitude longitude = true ->
  (distance_p (cell_centre t latitude longitude) latitude longitude
     <? of_int 1) = true ->
  cell_value t latitude longitude = Ok cv ->
  ((cv >=? to_float (of_int (-9000))) = true ->
   interpolated_value t latitude longitude = Ok cv)
  /\
  ((cv <? to_float (of_int (-9000))) = true ->
   interpolated_value t latitude longitude
   = Throw GRID_FLOAT_NODATA
       (mk_reason "Q0: Insufficient data when interpolating at "
          latitude longitude)).
Proof.
  intros _ Hd Hcv. unfold interpolated_value.
  rewrite (quadrant_Q0 _ _ Hd), Hcv. cbn [bind].
  split; intros Hc.
  - rewrite (ltb_leb_false _ _ Hc). reflexivity.
  - rewrite Hc. reflexivity.
Qed.

(** C10.  More than one metre from the centre of its cell, a point is in
    Q1 when its latitude and its longitude are both at least the centre's
    (so a point on either half-line through the centre that bounds Q1 is
    in Q1); of the rest, a point whose latitude is at least the centre's
    is in Q2; of the rest, a point whose longitude is at most the centre's
    is in Q3; every other point is in Q4.  A point of the first kind is
    interpolated by the Q1 case, the one that filters by [valid_height]. *)
Theorem quadrant_ties (latitude longitude : D) :
  let centre := cell_centre t latitude longitude in
  let c_latitude := fst centre in
  let c_longitude := snd centre in
  (latitude =? latitude) = true -> (longitude =? longitude) = true ->
  (c_latitude =? c_latitude) = true -> (c_longitude =? c_longitude) = true ->
  (of_int 1 <? distance_p centre latitude longitude) = true ->
  ((latitude >=? c_latitude) && (longitude >=? c_longitude) = true ->
   _quadrant t latitude longitude = Q1)
  /\ (longitude = c_longitude -> (latitude >=? c_latitude) = true ->
      _quadrant t latitude longitude = Q1)
  /\ (latitude = c_latitude -> (longitude >=? c_longitude) = true ->
      _quadrant t latitude longitude = Q1)
  /\ ((latitude >=? c_latitude) && (longitude >=? c_longitude) = false ->
      (latitude >=? c_latitude) = true ->
      _quadrant t latitude longitude = Q2)
  /\ ((latitude >=? c_latitude) = false ->
      (longitude <=? c_longitude) = true ->
      _quadrant t latitude longitude = Q3)
  /\ ((latitude >=? c_latitude) = false ->
      (longitude <=? c_longitude) = false ->
      _quadrant t latitude longitude = Q4)
  /\ ((latitude >=? c_latitude) && (longitude >=? c_longitude) = true ->
      interpolated_value t latitude longitude
      = idw_interpolation t Q1 true latitude longitude).
Proof.
  intros centre c_latitude c_longitude Hlat Hlon Hclat Hclon Hfar.
  assert (Hq : (distance_p centre latitude longitude <? of_int 1) = false)
    by (exact (ltb_asym _ _ Hfar)).
  assert (HQ1 : (latitude >=? c_latitude) && (longitude >=? c_longitude) = true
                -> _quadrant t latitude longitude = Q1).
  { intros H1. unfold _quadrant. fold centre. fold c_latitude.
    fold c_longitude. rewrite Hq, H1. reflexivity. }
  unfold _quadrant. fold centre. fold c_latitude. fold c_longitude.
  rewrite Hq.
  repeat split.
  - intros H1. rewrite H1. reflexivity.
  - intros E H1. rewrite H1. rewrite E at 1.
    rewrite (leb_refl _ Hclon). reflexivity.
  - intros E H1. rewrite H1. rewrite E at 1.
    rewrite (leb_refl _ Hclat). reflexivity.
  - intros H1 H2. rewrite H1, H2. rewrite H2 in H1. cbn [andb] in H1.
    rewrite (leb_total _ _ Hclon Hlon H1). reflexivity.
  - intros H1 H2. rewrite H1, H2. cbn [andb].
    rewrite (leb_total _ _ Hclat Hlat H1). reflexivity.
  - intros H1 H2. rewrite H1, H2. cbn [andb].
    rewrite andb_false_r. reflexivity.
  - intros H1. apply interpolated_value_Q1. exact (HQ1 H1).
Qed.

End QuadrantFacts.

(** ** The laws hold in exact arithmetic and in binary64 *)

Module RealLaws.
Import Real.
Local Open Scope R_scope.

Lemma ltb_true (x y : R) : ltb x y = true <-> x < y.
Proof. cbn. destruct (Rlt_dec x y); split; intros; try lra; congruence. Qed.

Lemma ltb_false (x y : R) : ltb x y = false <-> y <= x.
Proof. cbn. destruct (Rlt_dec x y); split; intros; try lra; congruence. Qed.

Lemma leb_true (x y : R) : leb x y = true <-> x <= y.
Proof. cbn. destruct (Rle_dec x y); split; intros; try lra; congruence. Qed.

Lemma leb_false (x y : R) : leb x y = false <-> y < x.
Proof. cbn. destruct (Rle_dec x y); split; intros; try lra; congruence. Qed.

Lemma eqb_true (x y : R) : eqb x y = true <-> x = y.
Proof. cbn. destruct (Req_dec_T x y); split; intros; try lra; congruence. Qed.

Lemma eqb_false (x y : R) : eqb x y = false <-> x <> y.
Proof. cbn. destruct (Req_dec_T x y); split; intros; try lra; congruence. Qed.

#[global] Instance laws : ArithLaws R.
Proof.
  constructor.
  - intros x y H. apply leb_true in H. apply ltb_false. exact H.
  - intros x y H. apply ltb_true in H. apply ltb_false. lra.
  - intros x y _ _ H. apply leb_false in H. apply leb_true. lra.
  - intros x H. apply leb_true in H. cbn in *. unfold trunc.
    destruct (Rle_dec 0 x); [reflexivity | contradiction].
Qed.

End RealLaws.

Module DoubleLaws.
Import Double.

Lemma SFcompare_antisym (x y : spec_float) :
  SFcompare y x = option_map CompOpp (SFcompare x y).
Proof.
  destruct x as [sx | sx | | sx mx ex], y as [sy | sy | | sy my ey];
    cbn; try reflexivity;
    try (destruct sx; reflexivity); try (destruct sy; reflexivity);
    try (destruct sx, sy; reflexivity).
  destruct sx, sy; cbn; try reflexivity;
    rewrite (Z.compare_antisym ex ey);
    destruct (ex ?= ey)%Z; cbn; try reflexivity;
    change (Pos.compare_cont Eq my mx) with (Pos.compare my mx);
    change (Pos.compare_cont Eq mx my) with (Pos.compare mx my);
    rewrite (Pos.compare_antisym mx my);
    destruct (mx ?= my)%positive; reflexivity.
Qed.

Lemma SFcompare_None (x y : spec_float) :
  SFcompare x y = None -> x = S754_nan \/ y = S754_nan.
Proof.
  destruct x as [sx | sx | | sx mx ex], y as [sy | sy | | sy my ey];
    cbn; intros H; try discriminate; auto.
Qed.

Lemma SFeqb_refl_number (x : spec_float) :
  SFeqb x x = true -> x <> S754_nan.
Proof. intros H E. subst x. discriminate. Qed.

(** The shifts of [trunc_sf] and [floor_sf] as arithmetic. *)
Lemma trunc_sf_arith (s : bool) (m : positive) (e : Z) :
  trunc_sf (S754_finite s m e)
  = cond_Zopp s (if (0 <=? e)%Z then Zpos m * 2 ^ e
                 else Z.quot (Zpos m) (2 ^ (- e))).
Proof.
  unfold trunc_sf. destruct (0 <=? e)%Z eqn:E.
  - apply Z.leb_le in E. rewrite Z.shiftl_mul_pow2 by lia. reflexivity.
  - apply Z.leb_gt in E. rewrite Z.shiftr_div_pow2 by lia.
    rewrite Z.quot_div_nonneg; [reflexivity | lia | ].
    apply Z.pow_pos_nonneg; lia.
Qed.

Lemma floor_sf_arith (s : bool) (m : positive) (e : Z) :
  floor_sf (S754_finite s m e)
  = if (0 <=? e)%Z then cond_Zopp s (Zpos m) * 2 ^ e
    else cond_Zopp s (Zpos m) / 2 ^ (- e).
Proof.
  unfold floor_sf. destruct (0 <=? e)%Z eqn:E.
  - apply Z.leb_le in E. rewrite Z.shiftl_mul_pow2 by lia. reflexivity.
  - apply Z.leb_gt in E. rewrite Z.shiftr_div_pow2 by lia. reflexivity.
Qed.

Example to_int_examples :
  map (to_int (D := float)) [dec 25 1; dec (-25) 1; dec 5 1; dec (-5) 1; of_int 7]
  = [2; -2; 0; 0; 7].
Proof. vm_compute. reflexivity. Qed.

Example floor_examples :
  map (floor (D := float)) [dec 25 1; dec (-25) 1; dec 5 1; dec (-5) 1; of_int 7]
  = [2; -3; 0; -1; 7].
Proof. vm_compute. reflexivity. Qed.

(** A [float] is a [double] that rounding to binary32 leaves alone. *)
Example round_float_examples :
  round_float (of_int 1000) = of_int 1000
  /\ round_float (of_int (-9999)) = of_int (-9999)
  /\ PrimFloat.eqb (round_float (dec 1 1)) (dec 1 1) = false
  /\ round_float (round_float (dec 1 1)) = round_float (dec 1 1).
Proof. vm_compute. repeat split; reflexivity. Qed.

#[global] Instance laws : ArithLaws float.
Proof.
  constructor; cbn.
  - intros x y. rewrite leb_spec, ltb_spec. unfold SFleb, SFltb.
    rewrite (SFcompare_antisym (Prim2SF x) (Prim2SF y)).
    destruct (SFcompare (Prim2SF x) (Prim2SF y)) as [[ | | ] | ]; cbn;
      congruence.
  - intros x y. rewrite !ltb_spec. unfold SFltb.
    rewrite (SFcompare_antisym (Prim2SF x) (Prim2SF y)).
    destruct (SFcompare (Prim2SF x) (Prim2SF y)) as [[ | | ] | ]; cbn;
      congruence.
  - intros x y. rewrite !eqb_spec, !leb_spec. unfold SFleb.
    intros Hx Hy. apply SFeqb_refl_number in Hx, Hy.
    rewrite (SFcompare_antisym (Prim2SF x) (Prim2SF y)).
    destruct (SFcompare (Prim2SF x) (Prim2SF y)) as [[ | | ] | ] eqn:E; cbn;
      try congruence.
    apply SFcompare_None in E. tauto.
  - intros x. rewrite leb_spec.
    change (Prim2SF (double_of_int 0)) with (S754_zero false).
    destruct (Prim2SF x) as [s | s | | s m e]; cbn; try reflexivity.
    destruct s; cbn; [discriminate | reflexivity].
Qed.

End DoubleLaws.

(** ** The edges of a tile *)

Section EdgeFacts.
Context {D : Type} {AR : Arith D}.

(** Outside the tile, [cell_value] returns [_nodata] and nothing else
    happens. *)
Lemma cell_value_outside (t : grid_float_tile D) (latitude longitude : D) :
  is_in_tile t latitude longitude = false ->
  cell_value t latitude longitude = Ok (to_float (of_int (_nodata t))).
Proof. intros H. unfold cell_value. rewrite H. reflexivity. Qed.

End EdgeFacts.

Module EdgeEvaluation.
Import Double Samples.

(** C1, at the failing input.  On the 2 x 2 tile, the point on the southern
    edge (40, -105.75) is in the tile and its row index is 2 = [_n_rows]; the
    point on the eastern edge (40.75, -105) is in the tile and its column
    index is 2 = [_n_columns].  In memory, [cell_value] indexes [_data] out of
    range at both; in small-memory mode it exits at the first and reads the
    cell of row 1, column 0 at the second. *)
Theorem edge_point_index_out_of_range :
  let south := (of_int 40, dec (-10575) 2) in
  let east := (dec 4075 2, of_int (-105)) in
  is_in_tile (edge_tile false) (fst south) (snd south) = true
  /\ _map_latitude_to_index (edge_tile false) (fst south)
     = _n_rows (edge_tile false)
  /\ cell_value (edge_tile false) (fst south) (snd south) = Undefined
  /\ cell_value (edge_tile true) (fst south) (snd south) = Exit (-1)
  /\ is_in_tile (edge_tile false) (fst east) (snd east) = true
  /\ _map_longitude_to_index (edge_tile false) (snd east)
     = _n_columns (edge_tile false)
  /\ cell_value (edge_tile false) (fst east) (snd east) = Undefined
  /\ cell_value (edge_tile true) (fst east) (snd east) = Ok (of_int 3).
Proof. vm_compute. repeat split; reflexivity. Qed.

End EdgeEvaluation.

(** ** The tile code *)

Section TileCodeFacts.
Context {D : Type} {AR : Arith D} {AL : ArithLaws D}.
Local Open Scope num_scope.

(** C7, amended.  [llc] truncates toward zero; where it stays in [int]
    ([llc_defined]: both casts have a value and neither the product nor the
    sum overflows) and [latitude + 1] and [-(longitude - 1)] are both at
    least zero, it is [floor(latitude+1)*1000 + floor(-(longitude-1))]. *)
Theorem llc_floor_north_west (latitude longitude : D) :
  llc_defined latitude longitude = true ->
  (of_int 0 <=? latitude + of_int 1) = true ->
  (of_int 0 <=? - (longitude - of_int 1)) = true ->
  llc latitude longitude = llc_spec latitude longitude.
Proof.
  intros _ Hlat Hlon. unfold llc, llc_spec.
  rewrite (to_int_floor _ Hlat), (to_int_floor _ Hlon). reflexivity.
Qed.

End TileCodeFacts.

Module TileCodeEvaluation.
Import Double Samples.

(** C7 as stated fails east of one degree: at latitude 0, longitude 1.5 the
    code computes 1000 and the floor formula gives 999. *)
Lemma llc_not_floor_east :
  llc (D := float) (of_int 0) (dec 15 1) = 1000
  /\ llc_spec (D := float) (of_int 0) (dec 15 1) = 999
  /\ llc (D := float) (of_int 0) (dec 15 1)
     <> llc_spec (D := float) (of_int 0) (dec 15 1).
Proof.
  split; [vm_compute; reflexivity | ].
  split; [vm_compute; reflexivity | ].
  vm_compute. intros H. discriminate H.
Qed.

(** It fails south of -1 degree as well: at latitude -1.5, longitude -105.5. *)
Lemma llc_not_floor_south :
  llc (D := float) (dec (-15) 1) (dec (-1055) 1) = 106
  /\ llc_spec (D := float) (dec (-15) 1) (dec (-1055) 1) = -894.
Proof. vm_compute. split; reflexivity. Qed.

Lemma llc_floor_north_west_witness :
  llc (D := float) (dec 415 1) (dec (-1055) 1)
  = llc_spec (D := float) (dec 415 1) (dec (-1055) 1).
Proof.
  apply (llc_floor_north_west (D := float) (dec 415 1) (dec (-1055) 1));
    vm_compute; reflexivity.
Defined.

End TileCodeEvaluation.

(** ** Tile names *)

Section NamingFacts.
Local Open Scope string_scope.

Definition lat_string (a : Z) : string := pad_string (to_string a) 2 PAD_LEFT "0".
Definition long_string (b : Z) : string := pad_string (to_string b) 3 PAD_LEFT "0".

(** A latitude part of at most two digits is written on two characters and
    read back as itself. *)
Definition lat_string_ok (a : Z) : bool :=
  (String.length (lat_string a) =? 2)%nat && (from_string (lat_string a) =? a)%Z.

(** A longitude part is written on three characters and read back as itself. *)
Definition long_string_ok (b : Z) : bool :=
  (String.length (long_string b) =? 3)%nat && (from_string (long_string b) =? b)%Z.

Lemma below_in_range (n : nat) (z : Z) :
  0 <= z < Z.of_nat n -> In z (map Z.of_nat (seq 0 n)).
Proof.
  intros Hz. apply in_map_iff. exists (Z.to_nat z). split.
  - apply Z2Nat.id. lia.
  - apply in_seq. lia.
Qed.

Lemma lat_string_ok_all : forall a, 0 <= a <= 99 -> lat_string_ok a = true.
Proof.
  assert (H : forallb lat_string_ok (map Z.of_nat (seq 0 100)) = true)
    by (vm_compute; reflexivity).
  intros a Ha. rewrite forallb_forall in H. apply H.
  apply below_in_range. lia.
Qed.

Lemma long_string_ok_all : forall b, 0 <= b <= 999 -> long_string_ok b = true.
Proof.
  assert (H : forallb long_string_ok (map Z.of_nat (seq 0 1000)) = true)
    by (vm_compute; reflexivity).
  intros b Hb. rewrite forallb_forall in H. apply H.
  apply below_in_range. lia.
Qed.

Example from_string_examples :
  map from_string ["41"; "005"; " 42abc"; "-12"; "+7"; ""; "w106"; "99999999999"]
  = [41; 5; 42; -12; 7; 0; 0; INT_MAX].
Proof. vm_compute. reflexivity. Qed.

Example base_filename_examples :
  map base_filename [41106; 7; 9005]
  = ["n41w106"; "n00w007"; "n09w005"].
Proof. vm_compute. reflexivity. Qed.

(** A name "nLLwLLL" is split at its fixed positions. *)
Lemma llc_of_name_split (l g : string) :
  String.length l = 2%nat -> String.length g = 3%nat ->
  llc_of_name ("n" ++ l ++ "w" ++ g)
  = Some (from_string l * 1000 + from_string g).
Proof.
  intros Hl Hg.
  destruct l as [ | l1 [ | l2 [ | ? ? ]]]; try discriminate Hl.
  destruct g as [ | g1 [ | g2 [ | g3 [ | ? ? ]]]]; try discriminate Hg.
  reflexivity.
Qed.

(** C6.  For a positive tile code whose latitude part [c / 1000] has at most
    two digits (the longitude part [c % 1000] has at most three), reading the
    base filename back gives the code: [llc(base_filename(c)) == c]. *)
Theorem llc_base_filename (c : Z) :
  0 < c -> Z.quot c 1000 <= 99 ->
  llc_of_name (base_filename c) = Some c.
Proof.
  intros Hc Hlat.
  assert (Ha : 0 <= Z.quot c 1000 <= 99)
    by (split; [apply Z.quot_pos; lia | exact Hlat]).
  assert (Hb : 0 <= Z.rem c 1000 <= 999)
    by (pose proof (Z.rem_bound_pos c 1000); lia).
  pose proof (lat_string_ok_all _ Ha) as Hl.
  pose proof (long_string_ok_all _ Hb) as Hg.
  unfold lat_string_ok, long_string_ok in Hl, Hg.
  apply andb_prop in Hl, Hg. destruct Hl as [Hl1 Hl2], Hg as [Hg1 Hg2].
  apply Nat.eqb_eq in Hl1, Hg1. apply Z.eqb_eq in Hl2, Hg2.
  unfold base_filename. fold (lat_string (Z.quot c 1000)).
  fold (long_string (Z.rem c 1000)).
  rewrite (llc_of_name_split _ _ Hl1 Hg1), Hl2, Hg2.
  f_equal. pose proof (Z.quot_rem' c 1000). lia.
Qed.

Lemma llc_base_filename_witness :
  llc_of_name (base_filename 41106) = Some 41106.
Proof. apply llc_base_filename; vm_compute; [reflexivity | discriminate]. Defined.

End NamingFacts.

(** ** The tile fetcher leaves present tiles alone *)

Section FetchFacts.
Variable FS : Type.
Variable os_open : FS -> string -> option N.
Variable os_stat : FS -> string -> option bool.
Variable os_mkdir : string -> FS -> Z * FS.
Variable os_unlink : string -> FS -> FS.
Variable os_system : string -> FS -> FS.
Variable debug : bool.

(** C9.  When the local header file and the local data file both exist and
    are not empty, [download_if_necessary] returns at once: the file system
    is as it was, and nothing was written, created, deleted or run. *)
Theorem download_if_necessary_present
    (llc : Z) (local_directory header data : string) (n_header n_data : N)
    (w : world FS) :
  local_header_filename llc local_directory = Some header ->
  local_data_filename llc local_directory = Some data ->
  os_open (fs FS w) header = Some n_header -> n_header <> 0%N ->
  os_open (fs FS w) data = Some n_data -> n_data <> 0%N ->
  download_if_necessary FS os_open os_stat os_mkdir os_unlink os_system debug
    llc local_directory w
  = (Done tt, w).
Proof.
  unfold local_header_filename, local_data_filename, dirname_with_slash.
  intros Hh Hd Hoh Hnh Hod Hnd.
  unfold download_if_necessary.
  destruct (last_char local_directory) as [c | ]; [ | discriminate Hh].
  match type of Hh with
  | Some ?x = _ => assert (Eh : x = header) by congruence
  end.
  match type of Hd with
  | Some ?x = _ => assert (Ed : x = data) by congruence
  end.
  unfold lift, bindM, ret, file_exists, file_empty, file_size, bindM, ret.
  rewrite Eh, Ed, Hoh, Hod.
  apply N.eqb_neq in Hnh, Hnd. rewrite Hnh, Hnd.
  reflexivity.
Qed.

End FetchFacts.

Module FetchEvaluation.
Local Open Scope string_scope.

(** A file system for running the fetcher: the readable files with their
    sizes; no directories, and commands that change nothing. *)
Definition files : Type := list (string * N).

Definition open (s : files) (filename : string) : option N :=
  match find (fun f => String.eqb (fst f) filename) s with
  | Some f => Some (snd f)
  | None => None
  end.

Definition cached : world files :=
  {| fs := [ ("/tmp/drmap/usgs_ned_13_n41w106_gridfloat.hdr", 180%N);
             ("/tmp/drmap/usgs_ned_13_n41w106_gridfloat.flt", 467597376%N) ];
     trace := [] |}.

Lemma download_if_necessary_present_witness :
  download_if_necessary files open (fun _ _ => None) (fun _ s => (0, s))
    (fun _ s => s) (fun _ s => s) false 41106 "/tmp/drmap" cached
  = (Done tt, cached).
Proof.
  apply (download_if_necessary_present files open _ _ _ _ _ 41106 "/tmp/drmap"
           "/tmp/drmap/usgs_ned_13_n41w106_gridfloat.hdr"
           "/tmp/drmap/usgs_ned_13_n41w106_gridfloat.flt"
           180%N 467597376%N cached);
    vm_compute; first [reflexivity | discriminate].
Defined.

(** With the data file missing, the same call does run the download. *)
Example download_if_necessary_absent :
  let w := {| fs := [ ("/tmp/drmap/usgs_ned_13_n41w106_gridfloat.hdr", 180%N) ];
              trace := [] |} in
  snd (download_if_necessary files open (fun _ _ => None) (fun _ s => (0, s))
         (fun _ s => s) (fun _ s => s) false 41106 "/tmp/drmap" w)
  <> w.
Proof. vm_compute. intros H. discriminate H. Qed.

End FetchEvaluation.

(** ** Cell centres and indices *)

Module CentreFacts.
Import Real RealLaws Samples.
Local Open Scope R_scope.

Lemma trunc_eval (z : Z) (x : R) :
  (0 <= z)%Z -> IZR z <= x < IZR z + 1 -> trunc x = z.
Proof.
  intros Hz Hx. apply IZR_le in Hz. unfold trunc.
  destruct (Rle_dec 0 x) as [ _ | Hneg ]; [ | lra ].
  symmetry. apply Int_part_spec. lra.
Qed.

(** In exact arithmetic, for a tile whose cell size is not zero and a
    valid index pair, mapping the centre of the cell back to indices gives
    the pair: [index_pair(cell_centre({row, col})) == {row, col}].  The
    program computes in binary64, where this is so on some tiles and not on
    others: see [CentreEvaluation]. *)
Theorem cell_centre_inverse (t : grid_float_tile R) (row col : Z) :
  _cellsize t <> 0 ->
  (0 <= row < _n_rows t)%Z -> (0 <= col < _n_columns t)%Z ->
  index_pair t (fst (cell_centre_ip t (row, col)))
               (snd (cell_centre_ip t (row, col)))
  = (row, col).
Proof.
  intros Hc Hrow Hcol.
  unfold index_pair, _map_latitude_to_index, _map_longitude_to_index,
    cell_centre_ip.
  cbn. f_equal; apply trunc_eval; try lia.
  - replace ((_yt t - (_yt t - _cellsize t / 2 - IZR row * _cellsize t))
             / _cellsize t) with (IZR row + / 2) by (field; exact Hc).
    lra.
  - replace ((_xl t + _cellsize t / 2 + IZR col * _cellsize t - _xl t)
             / _cellsize t) with (IZR col + / 2) by (field; exact Hc).
    lra.
Qed.

Lemma cell_centre_inverse_witness :
  index_pair (flat_tile 1000)
    (fst (cell_centre_ip (flat_tile 1000) (1, 2)%Z))
    (snd (cell_centre_ip (flat_tile 1000) (1, 2)%Z))
  = (1, 2)%Z.
Proof.
  apply (cell_centre_inverse (flat_tile 1000) 1 2); cbn; [lra | lia | lia].
Defined.

End CentreFacts.

(** ** Indices of the points of a tile *)

Module EdgeBounds.
Import Real RealLaws CentreFacts.
Local Open Scope R_scope.

Lemma is_between_bounds (value v1 v2 : R) :
  v1 <= v2 -> _is_between value v1 v2 = true -> v1 <= value <= v2.
Proof.
  intros H12. unfold _is_between.
  destruct (leb v1 value) eqn:E1, (leb value v2) eqn:E2; cbn [andb];
    try (apply leb_true in E1); try (apply leb_true in E2);
    try (intros _; lra);
    destruct (leb v2 value) eqn:E3, (leb value v1) eqn:E4; cbn [andb];
    try discriminate;
    apply leb_true in E3; apply leb_true in E4;
    try (apply leb_false in E1); try (apply leb_false in E2);
    intros _; lra.
Qed.

Lemma trunc_bounds (q : R) (n : Z) :
  0 <= q <= IZR n ->
  (0 <= trunc q <= n)%Z /\ (q < IZR n -> (trunc q < n)%Z).
Proof.
  intros Hq. unfold trunc.
  destruct (Rle_dec 0 q) as [ _ | Hneg ]; [ | lra ].
  destruct (base_Int_part q) as [Hlo Hhi].
  repeat split.
  - apply Z.lt_succ_r. apply lt_IZR. rewrite succ_IZR. lra.
  - apply le_IZR. lra.
  - intros Hlt. apply lt_IZR. lra.
Qed.

(** In exact arithmetic, on a tile with positive counts and cell size, the
    indices of a point of the tile are in [[0, n_rows]] and [[0, n_columns]];
    the row is [n_rows] on the southern edge only, and the column is
    [n_columns] on the eastern edge only. *)
Lemma index_within_tile (n_columns n_rows : Z) (xllcorner yllcorner cellsize : R)
    (nodata_value nodata : Z) (small_memory : bool) (file : list R)
    (latitude longitude : R) :
  let t := construct n_columns n_rows xllcorner yllcorner cellsize
             nodata_value nodata small_memory file in
  (0 < n_columns)%Z -> (0 < n_rows)%Z -> 0 < cellsize ->
  is_in_tile t latitude longitude = true ->
  (0 <= _map_latitude_to_index t latitude <= n_rows)%Z
  /\ (0 <= _map_longitude_to_index t longitude <= n_columns)%Z
  /\ (_yb t < latitude -> (_map_latitude_to_index t latitude < n_rows)%Z)
  /\ (longitude < _xr t -> (_map_longitude_to_index t longitude < n_columns)%Z).
Proof.
  intros t Hc Hr Hs Hin.
  apply IZR_lt in Hc, Hr.
  unfold is_in_tile in Hin. apply andb_prop in Hin. destruct Hin as [Hlat Hlon].
  assert (Hyt : _yt t = yllcorner + cellsize * IZR n_rows) by reflexivity.
  assert (Hxr : _xr t = xllcorner + cellsize * IZR n_columns) by reflexivity.
  assert (Hyb : _yb t = yllcorner) by reflexivity.
  assert (Hxl : _xl t = xllcorner) by reflexivity.
  apply is_between_bounds in Hlat; [ | rewrite Hyt, Hyb; nra].
  apply is_between_bounds in Hlon; [ | rewrite Hxr, Hxl; nra].
  unfold _map_latitude_to_index, _map_longitude_to_index.
  change (to_int ((_yt t - latitude)%num / _cellsize t)%num)
    with (trunc ((_yt t - latitude) / cellsize)).
  change (to_int ((longitude - _xl t)%num / _cellsize t)%num)
    with (trunc ((longitude - _xl t) / cellsize)).
  rewrite Hyt, Hyb in *. rewrite Hxr, Hxl in *.
  assert (Eq1 : (yllcorner + cellsize * IZR n_rows - latitude) / cellsize
                = IZR n_rows - (latitude - yllcorner) / cellsize)
    by (field; lra).
  assert (Eq2 : (longitude - xllcorner) / cellsize
                = IZR n_columns
                  - (xllcorner + cellsize * IZR n_columns - longitude) / cellsize)
    by (field; lra).
  assert (Hq1 : 0 <= (latitude - yllcorner) / cellsize <= IZR n_rows).
  { split.
    - apply Rmult_le_pos; [lra | left; apply Rinv_0_lt_compat; exact Hs].
    - apply Rmult_le_reg_r with cellsize; [exact Hs | ].
      unfold Rdiv. rewrite Rmult_assoc, Rinv_l by lra. lra. }
  assert (Hq2 : 0 <= (xllcorner + cellsize * IZR n_columns - longitude) / cellsize
                <= IZR n_columns).
  { split.
    - apply Rmult_le_pos; [lra | left; apply Rinv_0_lt_compat; exact Hs].
    - apply Rmult_le_reg_r with cellsize; [exact Hs | ].
      unfold Rdiv. rewrite Rmult_assoc, Rinv_l by lra. lra. }
  destruct (trunc_bounds ((yllcorner + cellsize * IZR n_rows - latitude) / cellsize)
              n_rows) as [B1 S1]; [rewrite Eq1; lra | ].
  destruct (trunc_bounds ((longitude - xllcorner) / cellsize) n_columns)
    as [B2 S2]; [rewrite Eq2; lra | ].
  repeat split; try lia.
  - intros Hlt. apply S1. rewrite Eq1.
    assert (0 < (latitude - yllcorner) / cellsize)
      by (apply Rdiv_lt_0_compat; lra).
    lra.
  - intros Hlt. apply S2. rewrite Eq2.
    assert (0 < (xllcorner + cellsize * IZR n_columns - longitude) / cellsize)
      by (apply Rdiv_lt_0_compat; lra).
    lra.
Qed.

End EdgeBounds.

Module CentreEvaluation.
Import Double Samples.







(** Far outside geographic coordinates the same happens with cells of one
    degree: at "latitude" 1e17, where neighbouring numbers are 16 apart,
    the centre of row 1 is mapped to row 0. *)
Example cell_centre_inverse_far :
  index_pair far_tile (fst (cell_centre_ip far_tile (1, 0)%Z))
                      (snd (cell_centre_ip far_tile (1, 0)%Z))
  = (0, 0)%Z.
Proof. vm_compute. reflexivity. Qed.

End CentreEvaluation.

(** ** Evaluation in exact arithmetic *)

Module RealEvaluation.
Import Real RealLaws Samples CentreFacts.
Local Open Scope R_scope.

(** The constants, in exact arithmetic. *)
Lemma DTOR_val : DTOR (D := R) = 314159265358979 / 100000000000000 / 180.
Proof. unfold DTOR, PI, dec. cbn. reflexivity. Qed.

Lemma RTOD_val : RTOD (D := R) = 1 / (314159265358979 / 100000000000000 / 180).
Proof. unfold RTOD. rewrite DTOR_val. reflexivity. Qed.

Lemma RE_val : RE (D := R) = 6371000.
Proof. reflexivity. Qed.

Lemma PI_gt_3 : 3 < Rtrigo1.PI.
Proof. pose proof PI2_3_2. lra. Qed.



(** *** Bounds on the sine and the arc tangent *)

Lemma sin_lb_poly (x : R) :
  sin_lb x = x - x ^ 3 / 6 + x ^ 5 / 120 - x ^ 7 / 5040.
Proof.
  unfold sin_lb, sin_approx, sin_term, sum_f_R0.
  rewrite !INR_IZR_INZ.
  change (Z.of_nat (fact (2 * 0 + 1))) with 1%Z.
  change (Z.of_nat (fact (2 * 1 + 1))) with 6%Z.
  change (Z.of_nat (fact (2 * 2 + 1))) with 120%Z.
  change (Z.of_nat (fact (2 * 3 + 1))) with 5040%Z.
  cbn [Nat.mul Nat.add pow]. field.
Qed.

Lemma sin_half (x : R) : 0 <= x <= 1 -> x / 2 <= Rtrigo_def.sin x.
Proof.
  intros Hx. pose proof PI_gt_3 as Hpi.
  destruct (SIN x) as [Hlb _]; [lra | lra | ].
  apply Rle_trans with (2 := Hlb).
  rewrite sin_lb_poly.
  assert (H2 : 0 <= x ^ 2 <= 1) by nra.
  assert (H3 : 0 <= x ^ 3 <= x) by nra.
  assert (H5 : 0 <= x ^ 5) by (apply pow_le; lra).
  assert (H7 : x ^ 7 <= x ^ 5) by (replace (x ^ 7) with (x ^ 5 * x ^ 2) by ring; nra).
  lra.
Qed.

Lemma atan_lower (z e : R) : 0 < e < 1 -> 2 * e < z -> e < atan z.
Proof.
  intros He Hz. pose proof PI_gt_3 as Hpi. pose proof PI2_1 as Hpi2.
  rewrite <- (atan_tan e) by lra.
  apply atan_increasing.
  assert (Hc : 1 / 2 < Rtrigo_def.cos e).
  { rewrite <- cos_PI3. apply cos_decreasing_1; lra. }
  assert (Hs : Rtrigo_def.sin e < e) by (apply sin_lt_x; lra).
  unfold tan.
  apply Rlt_trans with (2 := Hz).
  apply Rmult_lt_reg_r with (Rtrigo_def.cos e); [lra | ].
  unfold Rdiv. rewrite Rmult_assoc, Rinv_l by lra. nra.
Qed.

Lemma arctan2_lower (y x e : R) :
  0 < e < 1 -> 0 <= x <= 1 -> 2 * e < y -> e < arctan2 y x.
Proof.
  intros He Hx Hy. pose proof PI2_1 as Hpi2. unfold arctan2.
  destruct (Rlt_dec 0 x) as [Hpos | Hnpos].
  - apply atan_lower; [exact He | ].
    apply Rlt_le_trans with (1 := Hy).
    apply Rmult_le_reg_r with x; [exact Hpos | ].
    unfold Rdiv. rewrite Rmult_assoc, Rinv_l by lra. nra.
  - destruct (Rlt_dec x 0); [lra | ].
    destruct (Rlt_dec 0 y); lra.
Qed.

(** *** Distances *)

Lemma distance_unfold (lat1 long1 lat2 long2 : R) :
  distance lat1 long1 lat2 long2
  = let x := (lat2 - lat1) / 2 * DTOR in
    let y := (long2 - long1) / 2 * DTOR in
    let a := Rtrigo_def.sin x * Rtrigo_def.sin x
             + Rtrigo_def.cos (lat1 * DTOR) * Rtrigo_def.cos (lat2 * DTOR)
               * Rtrigo_def.sin y * Rtrigo_def.sin y in
    RE * (2 * arctan2 (R_sqrt.sqrt a) (R_sqrt.sqrt (1 - a))).
Proof. reflexivity. Qed.

(** Two points between 57 S and 57 N whose latitudes differ by a millionth
    of a radian or more are more than a metre apart. *)
Lemma distance_gt_1 (lat1 long1 lat2 long2 : R) :
  -1 <= lat1 * DTOR <= 1 -> -1 <= lat2 * DTOR <= 1 ->
  1 / 1000000 <= Rabs ((lat2 - lat1) / 2 * DTOR) <= 1 ->
  1 < distance lat1 long1 lat2 long2.
Proof.
  intros H1 H2 Hx. rewrite distance_unfold. cbv zeta.
  set (x := (lat2 - lat1) / 2 * DTOR) in *.
  set (y := (long2 - long1) / 2 * DTOR).
  set (a := _ + _).
  pose proof PI2_1 as Hpi2.
  assert (Hc1 : 0 < Rtrigo_def.cos (lat1 * DTOR))
    by (apply cos_gt_0; lra).
  assert (Hc2 : 0 < Rtrigo_def.cos (lat2 * DTOR))
    by (apply cos_gt_0; lra).
  assert (Hs : Rabs x / 2 <= Rabs (Rtrigo_def.sin x)).
  { destruct (Rle_dec 0 x) as [Hpos | Hneg].
    - rewrite (Rabs_pos_eq x) in * by exact Hpos.
      pose proof (sin_half x). rewrite Rabs_pos_eq; lra.
    - rewrite (Rabs_left x) in * by lra.
      pose proof (sin_half (- x)) as Hh. rewrite sin_neg in Hh.
      rewrite Rabs_left; lra. }
  assert (Ha : 1 / 4000000000000 <= a).
  { unfold a.
    assert (0 <= Rtrigo_def.cos (lat1 * DTOR) * Rtrigo_def.cos (lat2 * DTOR)
                 * Rtrigo_def.sin y * Rtrigo_def.sin y).
    { rewrite Rmult_assoc. apply Rmult_le_pos; nra. }
    assert (1 / 4000000000000 <= Rtrigo_def.sin x * Rtrigo_def.sin x).
    { replace (Rtrigo_def.sin x * Rtrigo_def.sin x)
        with (Rabs (Rtrigo_def.sin x) * Rabs (Rtrigo_def.sin x))
        by (rewrite <- Rabs_mult; apply Rabs_pos_eq; nra).
      pose proof (Rabs_pos (Rtrigo_def.sin x)). nra. }
    lra. }
  assert (Hsa : 1 / 2000000 <= R_sqrt.sqrt a).
  { replace (1 / 2000000) with (R_sqrt.sqrt (1 / 4000000000000)).
    - apply sqrt_le_1_alt. exact Ha.
    - replace (1 / 4000000000000) with ((1 / 2000000) * (1 / 2000000)) by lra.
      apply sqrt_square. lra. }
  assert (Hs1 : 0 <= R_sqrt.sqrt (1 - a) <= 1).
  { split; [apply sqrt_pos | ].
    apply Rle_trans with (R_sqrt.sqrt 1);
      [apply sqrt_le_1_alt; lra | rewrite sqrt_1; lra]. }
  pose proof (arctan2_lower (R_sqrt.sqrt a) (R_sqrt.sqrt (1 - a))
                (1 / 10000000)) as Hat.
  rewrite RE_val.
  assert (1 / 10000000 < arctan2 (R_sqrt.sqrt a) (R_sqrt.sqrt (1 - a)))
    by (apply Hat; lra).
  lra.
Qed.

(** The same, in degrees. *)
Lemma distance_gt_1' (lat1 long1 lat2 long2 : R) :
  -57 <= lat1 <= 57 -> -57 <= lat2 <= 57 ->
  1 / 1000 <= lat2 - lat1 <= 100 \/ 1 / 1000 <= lat1 - lat2 <= 100 ->
  1 < distance lat1 long1 lat2 long2.
Proof.
  intros H1 H2 Hx. apply distance_gt_1; rewrite ?DTOR_val.
  - lra.
  - lra.
  - destruct Hx as [Hx | Hx].
    + rewrite Rabs_pos_eq; lra.
    + rewrite Rabs_left; lra.
Qed.

(** *** The sample tile [flat_tile] *)

Lemma flat_index (h r c : Z) (lat lon : R) :
  (0 <= r)%Z -> (0 <= c)%Z ->
  IZR r <= 43 - lat < IZR r + 1 -> IZR c <= lon + 106 < IZR c + 1 ->
  index_pair (flat_tile h) lat lon = (r, c).
Proof.
  intros Hr Hc Hlat Hlon.
  unfold index_pair, _map_latitude_to_index, _map_longitude_to_index.
  cbn -[IZR]. f_equal; apply trunc_eval; try assumption.
  - lra.
  - lra.
Qed.

Lemma is_between_true (value v1 v2 : R) :
  v1 <= value <= v2 -> _is_between value v1 v2 = true.
Proof.
  intros [H1 H2]. unfold _is_between.
  rewrite (proj2 (leb_true v1 value) H1), (proj2 (leb_true value v2) H2).
  reflexivity.
Qed.

Lemma flat_in_tile (h : Z) (lat lon : R) :
  40 <= lat <= 43 -> -106 <= lon <= -103 ->
  is_in_tile (flat_tile h) lat lon = true.
Proof.
  intros Hlat Hlon. unfold is_in_tile.
  rewrite !is_between_true; [reflexivity | cbn -[IZR]; lra ..].
Qed.

Lemma flat_data_at (h r c : Z) :
  (0 <= r < 3)%Z -> (0 <= c < 3)%Z ->
  data_at (flat_tile h) r c = Ok (IZR h).
Proof.
  intros Hr Hc.
  assert (Er : (r = 0 \/ r = 1 \/ r = 2)%Z) by lia.
  assert (Ec : (c = 0 \/ c = 1 \/ c = 2)%Z) by lia.
  destruct Er as [-> | [-> | ->]], Ec as [-> | [-> | ->]]; reflexivity.
Qed.

Lemma flat_centre (h r c : Z) :
  cell_centre_ip (flat_tile h) (r, c)
  = (43 - 1 / 2 - IZR r, -106 + 1 / 2 + IZR c).
Proof. unfold cell_centre_ip. cbn -[IZR]. f_equal; lra. Qed.

Lemma flat_cell_value (h r c : Z) (lat lon : R) :
  40 <= lat <= 43 -> -106 <= lon <= -103 ->
  index_pair (flat_tile h) lat lon = (r, c) ->
  (0 <= r < 3)%Z -> (0 <= c < 3)%Z ->
  cell_value (flat_tile h) lat lon = Ok (IZR h).
Proof.
  intros Hlat Hlon Hi Hr Hc. unfold cell_value.
  rewrite (flat_in_tile h lat lon Hlat Hlon).
  assert (E1 : _map_latitude_to_index (flat_tile h) lat = r)
    by (change (fst (index_pair (flat_tile h) lat lon) = r);
        rewrite Hi; reflexivity).
  assert (E2 : _map_longitude_to_index (flat_tile h) lon = c)
    by (change (snd (index_pair (flat_tile h) lat lon) = c);
        rewrite Hi; reflexivity).
  rewrite E1, E2. apply flat_data_at; assumption.
Qed.

Lemma flat_cell_value_ip (h r c : Z) :
  (0 <= r < 3)%Z -> (0 <= c < 3)%Z ->
  cell_value_ip (flat_tile h) (r, c) = Ok (IZR h).
Proof. intros Hr Hc. unfold cell_value_ip. apply flat_data_at; assumption. Qed.

(** The three sample points lie in the cell of row 1, column 1. *)
Lemma index_centre h : index_pair (flat_tile h) (83 / 2) (-209 / 2) = (1, 1)%Z.
Proof. apply flat_index; try lia; lra. Qed.
Lemma index_nw h : index_pair (flat_tile h) (167 / 4) (-419 / 4) = (1, 1)%Z.
Proof. apply flat_index; try lia; lra. Qed.
Lemma index_ne h : index_pair (flat_tile h) (167 / 4) (-417 / 4) = (1, 1)%Z.
Proof. apply flat_index; try lia; lra. Qed.

(** At the centre of a cell the distance to the centre is zero. *)
Lemma distance_centre_0 (h : Z) :
  distance_p (cell_centre (flat_tile h) (83 / 2) (-209 / 2)) (83 / 2) (-209 / 2) = 0.
Proof.
  unfold cell_centre, distance_p. rewrite index_centre, flat_centre.
  cbn [fst snd]. rewrite distance_unfold. cbv zeta.
  replace ((83 / 2 - (43 - 1 / 2 - 1)) / 2 * DTOR) with 0 by lra.
  replace ((-209 / 2 - (-106 + 1 / 2 + 1)) / 2 * DTOR) with 0 by lra.
  rewrite sin_0. 
  replace (0 * 0 + _ * 0 * 0) with 0 by ring.
  rewrite Rminus_0_r, sqrt_0, sqrt_1.
  unfold arctan2. destruct (Rlt_dec 0 1); [ | lra].
  unfold Rdiv. rewrite Rmult_0_l, atan_0. ring.
Qed.

(** North-west (41.75, -104.75) and north-east (41.75, -104.25) of the
    centre of the cell, each of the four cells of the quadrant has its centre
    more than a metre away. *)
Lemma far_nw (h r c : Z) :
  (0 <= r <= 1)%Z ->
  1 < distance_p (cell_centre_ip (flat_tile h) (r, c)) (167 / 4) (-419 / 4).
Proof.
  intros Hr. rewrite flat_centre. unfold distance_p. cbn [fst snd].
  assert (Er : (r = 0 \/ r = 1)%Z) by lia.
  apply distance_gt_1'; destruct Er as [-> | ->]; lra.
Qed.

Lemma far_ne (h r c : Z) :
  (0 <= r <= 1)%Z ->
  1 < distance_p (cell_centre_ip (flat_tile h) (r, c)) (167 / 4) (-417 / 4).
Proof.
  intros Hr. rewrite flat_centre. unfold distance_p. cbn [fst snd].
  assert (Er : (r = 0 \/ r = 1)%Z) by lia.
  apply distance_gt_1'; destruct Er as [-> | ->]; lra.
Qed.

Lemma quadrant_nw (h : Z) : _quadrant (flat_tile h) (167 / 4) (-419 / 4) = Q2.
Proof.
  unfold _quadrant, cell_centre. rewrite index_nw.
  rewrite (proj2 (ltb_false _ _)).
  2:{ apply Rlt_le, (far_nw h 1 1). lia. }
  rewrite flat_centre. cbn [fst snd].
  rewrite (proj2 (leb_true (43 - 1 / 2 - 1) (167 / 4))) by lra.
  rewrite (proj2 (leb_false (-106 + 1 / 2 + 1) (-419 / 4))) by lra.
  rewrite (proj2 (leb_true (-419 / 4) (-106 + 1 / 2 + 1))) by lra.
  reflexivity.
Qed.

Lemma quadrant_ne (h : Z) : _quadrant (flat_tile h) (167 / 4) (-417 / 4) = Q1.
Proof.
  unfold _quadrant, cell_centre. rewrite index_ne.
  rewrite (proj2 (ltb_false _ _)).
  2:{ apply Rlt_le, (far_ne h 1 1). lia. }
  rewrite flat_centre. cbn [fst snd].
  rewrite (proj2 (leb_true (43 - 1 / 2 - 1) (167 / 4))) by lra.
  rewrite (proj2 (leb_true (-106 + 1 / 2 + 1) (-417 / 4))) by lra.
  reflexivity.
Qed.

(** The weighted mean of four equal heights is that height, and the weight
    sum of four positive distances is not zero. *)
Lemma mean_of_equal (v d0 d1 d2 d3 : R) :
  0 < d0 -> 0 < d1 -> 0 < d2 -> 0 < d3 ->
  let w := 0 + 1 / d0 + 1 / d1 + 1 / d2 + 1 / d3 in
  w <> 0 /\ (0 + v / d0 + v / d1 + v / d2 + v / d3) / w = v.
Proof.
  intros H0 H1 H2 H3 w.
  assert (Hw : 0 < w).
  { unfold w.
    pose proof (Rdiv_lt_0_compat 1 d0 Rlt_0_1 H0).
    pose proof (Rdiv_lt_0_compat 1 d1 Rlt_0_1 H1).
    pose proof (Rdiv_lt_0_compat 1 d2 Rlt_0_1 H2).
    pose proof (Rdiv_lt_0_compat 1 d3 Rlt_0_1 H3). lra. }
  split; [lra | ].
  replace (0 + v / d0 + v / d1 + v / d2 + v / d3) with (v * w)
    by (unfold w; field; repeat split; lra).
  field. lra.
Qed.

(** C4, at the failing input.  On a tile whose every cell holds the NODATA
    value -9999, in exact arithmetic: north-west of the centre of cell (1, 1)
    (the Q2 case) [interpolated_value] returns -9999, a number; north-east of
    it (the Q1 case) it throws the NODATA error. *)
Theorem nodata_neighbourhood :
  interpolated_value (flat_tile (-9999)) (167 / 4) (-419 / 4) = Ok (-9999)
  /\ interpolated_value (flat_tile (-9999)) (167 / 4) (-417 / 4)
     = Throw GRID_FLOAT_NODATA
         (mk_reason "Q1: Insufficient data when interpolating at "
            (167 / 4) (-417 / 4)).
Proof.
  split.
  - unfold interpolated_value. rewrite quadrant_nw, index_nw.
    rewrite (flat_cell_value (-9999) 1 1) by (try apply index_nw; try lia; lra).
    cbn [bind fst snd].
    rewrite !flat_cell_value_ip by lia. cbn [bind].
    rewrite mean_loop_all_cells. cbv zeta.
    unfold idw_weight, sum. cbn [map fold_left fst snd].
    set (d0 := distance_p _ _ _). set (d1 := distance_p _ _ _).
    set (d2 := distance_p _ _ _). set (d3 := distance_p _ _ _).
    assert (H0 : 1 < d0) by (unfold d0, cell_centre; rewrite index_nw; apply far_nw; lia).
    assert (H1 : 1 < d1) by (apply far_nw; lia).
    assert (H2 : 1 < d2) by (apply far_nw; lia).
    assert (H3 : 1 < d3) by (apply far_nw; lia).
    destruct (mean_of_equal (-9999) d0 d1 d2 d3) as [Hw Hm]; try lra.
    cbv zeta in Hw, Hm.
    rewrite (proj2 (eqb_false _ _)) by exact Hw.
    cbn -[IZR]. f_equal. exact Hm.
  - unfold interpolated_value. rewrite quadrant_ne, index_ne.
    rewrite (flat_cell_value (-9999) 1 1) by (try apply index_ne; try lia; lra).
    cbn [bind fst snd].
    rewrite !flat_cell_value_ip by lia. cbn [bind].
    rewrite mean_loop_valid_filter. cbv zeta.
    assert (Hv : valid_height (flat_tile (-9999)) (-9999) = false).
    { unfold valid_height. apply ltb_false. cbn -[IZR]. lra. }
    cbn [filter fst]. rewrite Hv.
    unfold idw_weight, sum. cbn [map fold_left].
    rewrite (proj2 (eqb_true _ _)) by reflexivity.
    reflexivity.
Qed.

Lemma far_own_nw (h : Z) :
  1 < distance_p (cell_centre (flat_tile h) (167 / 4) (-419 / 4))
        (167 / 4) (-419 / 4).
Proof. unfold cell_centre. rewrite index_nw. apply far_nw. lia. Qed.

Lemma interpolated_value_near_centre_witness :
  interpolated_value (flat_tile 1000) (83 / 2) (-209 / 2) = Ok 1000.
Proof.
  apply (interpolated_value_near_centre (flat_tile 1000) (83 / 2) (-209 / 2) 1000).
  - apply flat_in_tile; lra.
  - apply ltb_true. rewrite distance_centre_0. cbn -[IZR]. lra.
  - apply (flat_cell_value 1000 1 1); try apply index_centre; try lia; lra.
  - apply leb_true. cbn -[IZR]. lra.
Defined.

Lemma quadrant_ties_witness :
  _quadrant (flat_tile 1000) (167 / 4) (-419 / 4) = Q2.
Proof.
  apply (quadrant_ties (flat_tile 1000) (167 / 4) (-419 / 4));
    try (apply eqb_true; reflexivity).
  - apply ltb_true. apply far_own_nw.
  - unfold cell_centre. rewrite index_nw, flat_centre. cbn [fst snd].
    apply andb_false_intro2. apply leb_false. lra.
  - unfold cell_centre. rewrite index_nw, flat_centre. cbn [fst snd].
    apply leb_true. lra.
Defined.

(** C5, at the failing input.  From (0, 0) on bearing 0 for 6371000 m, in
    exact arithmetic: [ll_from_bd] takes the sine of the whole sum and
    returns the latitude [sin 1] radians; the forward geodesic formula gives
    1 radian, which is more. *)
Theorem ll_from_bd_misplaced_sine :
  fst (ll_from_bd (D := R) 0 0 0 6371000) = Rtrigo_def.sin 1 * RTOD
  /\ fst (destination_spec (D := R) 0 0 0 6371000) = 1 * RTOD
  /\ fst (ll_from_bd (D := R) 0 0 0 6371000)
     < fst (destination_spec (D := R) 0 0 0 6371000).
Proof.
  pose proof PI2_1 as Hpi2.
  assert (Hs : Rtrigo_def.sin 1 < 1) by (apply sin_lt_x; lra).
  assert (Hs' : -1 <= Rtrigo_def.sin 1) by (pose proof (SIN_bound 1); lra).
  assert (E1 : fst (ll_from_bd (D := R) 0 0 0 6371000) = Rtrigo_def.sin 1 * RTOD).
  { change (Ratan.asin (Rtrigo_def.sin
              (0 * DTOR * Rtrigo_def.cos (6371000 / RE)
               + Rtrigo_def.cos (0 * DTOR) * Rtrigo_def.sin (6371000 / RE)
                 * Rtrigo_def.cos (0 * DTOR))) * RTOD
            = Rtrigo_def.sin 1 * RTOD).
    f_equal. rewrite RE_val.
    replace (6371000 / 6371000) with 1 by lra.
    rewrite !Rmult_0_l, cos_0, Rplus_0_l, Rmult_1_l, Rmult_1_r.
    apply asin_sin. lra. }
  assert (E2 : fst (destination_spec (D := R) 0 0 0 6371000) = 1 * RTOD).
  { change (Ratan.asin
              (Rtrigo_def.sin (0 * DTOR) * Rtrigo_def.cos (6371000 / RE)
               + Rtrigo_def.cos (0 * DTOR) * Rtrigo_def.sin (6371000 / RE)
                 * Rtrigo_def.cos (0 * DTOR)) * RTOD
            = 1 * RTOD).
    f_equal. rewrite RE_val.
    replace (6371000 / 6371000) with 1 by lra.
    rewrite !Rmult_0_l, sin_0, cos_0, Rmult_0_l, Rplus_0_l, Rmult_1_l, Rmult_1_r.
    apply asin_sin. lra. }
  repeat split; [exact E1 | exact E2 | ].
  rewrite E1, E2, RTOD_val. 
  apply Rmult_lt_compat_r; [ | exact Hs]. lra.
Qed.

End RealEvaluation.

(** * More of the code

    Properties of functions the sections above leave out, and of the ones
    they cover at inputs they do not reach. *)

(** ** The two storage modes *)

Section StorageFacts.
Context {D : Type} {AR : Arith D}.
Local Open Scope num_scope.

Variables (n_columns n_rows : Z) (xllcorner yllcorner cellsize : D).
Variables (nodata_value nodata : Z) (file : list D).

(** Cell [column] of row [row], as the constructor's import loop leaves it:
    the cell of the file at [row * n_columns + column], or zero past the end
    of the file. *)
Lemma read_row_nth (row column : Z) :
  (0 <= row)%Z -> (0 <= column < n_columns)%Z ->
  nth_error (read_row file n_columns row) (Z.to_nat column)
  = Some (nth (Z.to_nat (row * n_columns + column)) file (of_int 0)).
Proof.
  intros Hr Hc. unfold read_row.
  set (got := firstn (Z.to_nat n_columns)
                (skipn (Z.to_nat (row * n_columns)) file)).
  assert (Hgot : forall i, (i < Z.to_nat n_columns)%nat ->
                   nth_error got i
                   = nth_error file (Z.to_nat (row * n_columns) + i)).
  { intros i Hi. unfold got. rewrite nth_error_firstn.
    destruct (Nat.ltb_spec i (Z.to_nat n_columns)); [ | lia].
    apply nth_error_skipn. }
  assert (Hidx : Z.to_nat (row * n_columns + column)
                 = (Z.to_nat (row * n_columns) + Z.to_nat column)%nat) by nia.
  rewrite Hidx.
  destruct (Nat.lt_ge_cases (Z.to_nat column) (List.length got)) as [Hin | Hout].
  - rewrite nth_error_app1 by exact Hin.
    rewrite Hgot by lia.
    assert (Hsome : nth_error got (Z.to_nat column) <> None)
      by (apply nth_error_Some; exact Hin).
    rewrite Hgot in Hsome by lia.
    destruct (nth_error file (Z.to_nat (row * n_columns) + Z.to_nat column))
      as [v | ] eqn:E; [ | congruence].
    f_equal. symmetry. apply nth_error_nth with (1 := E).
  - rewrite nth_error_app2 by exact Hout.
    assert (Hnone : nth_error got (Z.to_nat column) = None)
      by (apply nth_error_None; exact Hout).
    rewrite Hgot in Hnone by lia.
    apply nth_error_None in Hnone.
    rewrite (nth_overflow file (of_int 0) Hnone).
    rewrite nth_error_repeat; [reflexivity | ].
    assert (List.length got <= Z.to_nat n_columns)%nat
      by (unfold got; apply firstn_le_length).
    lia.
Qed.

Lemma in_memory_cell (row column : Z) :
  (0 <= row < n_rows)%Z -> (0 <= column < n_columns)%Z ->
  cell_value_ip
    (construct n_columns n_rows xllcorner yllcorner cellsize nodata_value
       nodata false file) (row, column)
  = Ok (nth (Z.to_nat (row * n_columns + column)) file (of_int 0)).
Proof.
  intros Hr Hc. unfold cell_value_ip, data_at. cbn [construct _sm _data fst snd].
  destruct (Z.ltb_spec row 0); [lia | ].
  destruct (Z.ltb_spec column 0); [lia | ]. cbn [orb].
  rewrite nth_error_map, nth_error_seq.
  destruct (Nat.ltb_spec (Z.to_nat row) (Z.to_nat n_rows)); [ | lia].
  cbn [option_map Nat.add]. rewrite Z2Nat.id by lia.
  rewrite read_row_nth by lia. reflexivity.
Qed.

Lemma on_disk_cell (row column : Z) :
  (0 <= row < n_rows)%Z -> (0 <= column < n_columns)%Z ->
  cell_value_ip
    (construct n_columns n_rows xllcorner yllcorner cellsize nodata_value
       nodata true file) (row, column)
  = match nth_error file (Z.to_nat (row * n_columns + column)) with
    | Some v => Ok v
    | None => Exit (-1)
    end.
Proof.
  intros Hr Hc. unfold cell_value_ip, read_at.
  cbn [construct _sm _file _n_columns fst snd].
  destruct (Z.ltb_spec (row * (n_columns * 4) + column * 4) 0); [nia | ].
  replace ((row * (n_columns * 4) + column * 4) / 4)%Z
    with (row * n_columns + column)%Z; [reflexivity | ].
  apply Z.div_unique with 0%Z; lia.
Qed.

(** X1.  On a tile whose byte positions stay in [int], a cell of the grid
    that the data file holds has the same value in both storage modes:
    read by seeking in the file ([small_memory]) and read from the raster
    in memory. *)
Theorem small_memory_same_cell (row column : Z) :
  (n_rows <= INT_MAX)%Z -> (n_columns * 4 <= INT_MAX)%Z ->
  (row * (n_columns * 4) + column * 4 <= INT_MAX)%Z ->
  (0 <= row < n_rows)%Z -> (0 <= column < n_columns)%Z ->
  (row * n_columns + column < Z.of_nat (List.length file))%Z ->
  cell_value_ip
    (construct n_columns n_rows xllcorner yllcorner cellsize nodata_value
       nodata true file) (row, column)
  = cell_value_ip
    (construct n_columns n_rows xllcorner yllcorner cellsize nodata_value
       nodata false file) (row, column).
Proof.
  intros _ _ _ Hr Hc Hlen. rewrite on_disk_cell, in_memory_cell by assumption.
  destruct (nth_error file (Z.to_nat (row * n_columns + column))) as [v | ] eqn:E.
  - f_equal. symmetry. apply nth_error_nth with (1 := E).
  - apply nth_error_None in E. nia.
Qed.

(** X2.  On a tile whose byte positions stay in [int], for a cell of the
    grid past the end of a data file that is too short, the two storage
    modes part: the raster in memory holds zero there, and the seeking read
    ends the process with [exit(-1)]. *)
Theorem short_file_cell (row column : Z) :
  (n_rows <= INT_MAX)%Z -> (n_columns * 4 <= INT_MAX)%Z ->
  (row * (n_columns * 4) + column * 4 <= INT_MAX)%Z ->
  (0 <= row < n_rows)%Z -> (0 <= column < n_columns)%Z ->
  (Z.of_nat (List.length file) <= row * n_columns + column)%Z ->
  cell_value_ip
    (construct n_columns n_rows xllcorner yllcorner cellsize nodata_value
       nodata false file) (row, column)
  = Ok (of_int 0)
  /\ cell_value_ip
       (construct n_columns n_rows xllcorner yllcorner cellsize nodata_value
          nodata true file) (row, column)
     = Exit (-1).
Proof.
  intros _ _ _ Hr Hc Hlen. rewrite on_disk_cell, in_memory_cell by assumption.
  assert (Hover : (List.length file <= Z.to_nat (row * n_columns + column))%nat)
    by nia.
  split.
  - rewrite (nth_overflow file (of_int 0) Hover). reflexivity.
  - apply nth_error_None in Hover. rewrite Hover. reflexivity.
Qed.

End StorageFacts.

Module StorageEvaluation.
Import Double Samples.

Lemma small_memory_same_cell_witness :
  cell_value_ip (edge_tile true) (1, 0)%Z = cell_value_ip (edge_tile false) (1, 0)%Z.
Proof.
  apply (small_memory_same_cell (D := float) 2 2 (of_int (-106)) (of_int 40)
           (dec 5 1) (-9999) (-9999) (map of_int [1; 2; 3; 4]%Z) 1 0);
    unfold INT_MAX; cbn; lia.
Defined.

(** A 2 x 2 tile whose data file holds three cells only. *)
Lemma short_file_cell_witness :
  let file := map (of_int (D := float)) [1; 2; 3]%Z in
  cell_value_ip
    (construct 2 2 (of_int (-106)) (of_int 40) (dec 5 1) (-9999) (-9999)
       false file) (1, 1)%Z
  = Ok (of_int 0)
  /\ cell_value_ip
       (construct 2 2 (of_int (-106)) (of_int 40) (dec 5 1) (-9999) (-9999)
          true file) (1, 1)%Z
     = Exit (-1).
Proof.
  apply (short_file_cell (D := float) 2 2 (of_int (-106)) (of_int 40)
           (dec 5 1) (-9999) (-9999) (map of_int [1; 2; 3]%Z) 1 1);
    unfold INT_MAX; cbn; lia.
Defined.

End StorageEvaluation.

(** ** Interpolation: bounds and missing data *)

Section UnfilteredFacts.
Context {D : Type} {AR : Arith D} {LM : Libm D}.
Local Open Scope num_scope.

Variable t : grid_float_tile D.

(** The Q2, Q3 and Q4 cases: the mean over all four cells. *)
Lemma interpolated_value_unfiltered (q : QUADRANT) (latitude longitude : D) :
  q <> Q0 -> q <> Q1 ->
  _quadrant t latitude longitude = q ->
  interpolated_value t latitude longitude
  = idw_interpolation t q false latitude longitude.
Proof.
  intros H0 H1 Hq.
  destruct q; try congruence;
    unfold interpolated_value, idw_interpolation; rewrite Hq;
    unfold index_pair, neighbours; cbn [fst snd read_cells];
    (destruct (cell_value t latitude longitude);
     [ rewrite !bind_Ok | reflexivity .. ]);
    repeat match goal with
    | |- context [bind (cell_value_ip ?t ?i) _] =>
        destruct (cell_value_ip t i);
        [ rewrite !bind_Ok | reflexivity .. ]
    end; cbn [map combine];
    rewrite mean_loop_all_cells; reflexivity.
Qed.

Lemma read_cells_each (ips : list (Z * Z)) (hs : list D) :
  read_cells t ips = Ok hs ->
  Forall2 (fun ip h => cell_value_ip t ip = Ok h) ips hs.
Proof.
  revert hs. induction ips as [ | ip ips IH]; intros hs; cbn [read_cells].
  - intros E. inversion E. constructor.
  - destruct (cell_value_ip t ip) as [h | | | ] eqn:Eh; cbn [bind];
      try discriminate.
    destruct (read_cells t ips) as [hs' | | | ]; cbn [bind]; try discriminate.
    intros E. inversion E. subst hs. constructor; [exact Eh | apply IH; reflexivity].
Qed.

End UnfilteredFacts.

Module MeanFacts.
Import Real RealLaws Samples RealEvaluation.
Local Open Scope R_scope.

(** A cell that counts: its height within the bounds, its distance positive. *)
Definition bounded (lo hi : R) (c : R * R) : Prop :=
  lo <= fst c <= hi /\ 0 < snd c.

Lemma fold_add_weights (lo hi : R) (cells : list (R * R)) (s w : R) :
  Forall (bounded lo hi) cells ->
  lo * w <= s <= hi * w -> 0 <= w ->
  let s' := fold_left Rplus (map (fun c => fst c / snd c) cells) s in
  let w' := fold_left Rplus (map (fun c => 1 / snd c) cells) w in
  lo * w' <= s' <= hi * w' /\ w <= w' /\ (cells <> [] -> w < w').
Proof.
  intros HF. revert s w.
  induction HF as [ | [h d] cells [Hh Hd] HF IH]; intros s w Hs Hw; cbn [map fold_left].
  - repeat split; try lra. congruence.
  - cbn [fst snd] in *.
    assert (Hi : 0 < / d) by (apply Rinv_0_lt_compat; exact Hd).
    destruct (IH (s + h / d) (w + 1 / d)) as (Hb & Hle & _).
    + unfold Rdiv. nra.
    + unfold Rdiv. nra.
    + cbv zeta in Hb, Hle. repeat split; try tauto; unfold Rdiv in *; lra.
Qed.

(** The weighted mean of bounded cells is within the bounds. *)
Lemma idw_mean_between (lo hi : R) (cells : list (R * R)) :
  Forall (bounded lo hi) cells ->
  (cells = [] /\ idw_weight cells = 0)
  \/ (0 < idw_weight cells /\ lo <= idw_mean cells <= hi).
Proof.
  intros HF. destruct cells as [ | c cells]; [left; split; reflexivity | right].
  destruct (fold_add_weights lo hi (c :: cells) 0 0 HF ltac:(lra) ltac:(lra))
    as (Hb & _ & Hpos).
  cbv zeta in Hb, Hpos. specialize (Hpos ltac:(discriminate)).
  unfold idw_mean, idw_weight, sum in *.
  change (@of_int R arith 0) with 0.
  change (@add R arith) with Rplus.
  change (@div R arith) with Rdiv.
  set (s := fold_left Rplus (map (fun c => fst c / snd c) (c :: cells)) 0) in *.
  set (w := fold_left Rplus (map (fun c => 1 / snd c) (c :: cells)) 0) in *.
  split; [exact Hpos | ].
  assert (Hi : 0 < / w) by (apply Rinv_0_lt_compat; exact Hpos).
  split.
  - apply Rmult_le_reg_r with w; [exact Hpos | ].
    unfold Rdiv. rewrite Rmult_assoc, Rinv_l by lra. lra.
  - apply Rmult_le_reg_r with w; [exact Hpos | ].
    unfold Rdiv. rewrite Rmult_assoc, Rinv_l by lra. lra.
Qed.

Lemma quadrant_away (t : grid_float_tile R) (latitude longitude : R) :
  _quadrant t latitude longitude <> Q0 ->
  1 <= distance_p (cell_centre t latitude longitude) latitude longitude.
Proof.
  unfold _quadrant. cbv zeta.
  destruct (ltb _ _) eqn:E; [congruence | ].
  intros _. apply ltb_false in E. exact E.
Qed.

Lemma idw_interpolation_between (t : grid_float_tile R) (q : QUADRANT)
    (filtered : bool) (latitude longitude lo hi v : R) :
  (forall h, cell_value t latitude longitude = Ok h -> lo <= h <= hi) ->
  (forall ip h, In ip (neighbours q (index_pair t latitude longitude)) ->
                cell_value_ip t ip = Ok h -> lo <= h <= hi) ->
  0 < distance_p (cell_centre t latitude longitude) latitude longitude ->
  (forall ip, In ip (neighbours q (index_pair t latitude longitude)) ->
              0 < distance_p (cell_centre_ip t ip) latitude longitude) ->
  idw_interpolation t q filtered latitude longitude = Ok v ->
  lo <= v <= hi.
Proof.
  intros H0 Hn Hd0 Hdn. unfold idw_interpolation.
  destruct (cell_value t latitude longitude) as [h0 | | | ] eqn:E0;
    cbn [bind]; try discriminate.
  destruct (read_cells t _) as [hs | | | ] eqn:Ehs; cbn [bind]; try discriminate.
  apply read_cells_each in Ehs. cbv zeta.
  set (ips := neighbours q (index_pair t latitude longitude)) in *.
  assert (HF : Forall (bounded lo hi)
                 (combine (h0 :: hs)
                    (map (fun c => distance_p c latitude longitude)
                       (cell_centre t latitude longitude
                        :: map (cell_centre_ip t) ips)))).
  { cbn [map combine]. constructor; [split; [apply H0; reflexivity | exact Hd0] | ].
    clearbody ips. clear E0 H0.
    induction Ehs as [ | ip h ips hs Eh Ehs IH]; cbn [map combine]; [constructor | ].
    constructor.
    - split; cbn [fst snd]; [apply (Hn ip); [left; reflexivity | exact Eh] | ].
      apply Hdn. left; reflexivity.
    - apply IH; intros; [eapply Hn | apply Hdn]; try right; eassumption. }
  set (cells := combine _ _) in *.
  assert (HF' : Forall (bounded lo hi)
                  (if filtered
                   then filter (fun c => valid_height t (fst c)) cells
                   else cells)).
  { destruct filtered; [ | exact HF].
    rewrite Forall_forall in *. intros c Hc. apply filter_In in Hc.
    apply HF, Hc. }
  destruct (idw_mean_between lo hi _ HF') as [[_ Hw] | [Hw Hm]].
  - rewrite Hw. rewrite (proj2 (eqb_true _ _)) by reflexivity. discriminate.
  - match type of Hw with
    | 0 < ?w => assert (Hne : w <> IZR 0) by lra;
                rewrite (proj2 (eqb_false w (@of_int R arith 0%Z)) Hne)
    end.
    intros E. inversion E. exact Hm.
Qed.

(** X5.  In exact arithmetic: when the value of the cell of the point and the
    values of its quadrant neighbours all lie between [lo] and [hi], and the
    point is at no neighbour's centre (a distance of zero would be divided
    by), a value that [interpolated_value] returns lies between [lo] and
    [hi] as well. *)
Theorem interpolated_value_between (t : grid_float_tile R)
    (latitude longitude lo hi v : R) :
  let q := _quadrant t latitude longitude in
  let i0 := index_pair t latitude longitude in
  (forall h, cell_value t latitude longitude = Ok h -> lo <= h <= hi) ->
  (forall ip h, In ip (neighbours q i0) ->
                cell_value_ip t ip = Ok h -> lo <= h <= hi) ->
  (forall ip, In ip (neighbours q i0) ->
              0 < distance_p (cell_centre_ip t ip) latitude longitude) ->
  interpolated_value t latitude longitude = Ok v ->
  lo <= v <= hi.
Proof.
  intros q i0 H0 Hn Hdn.
  destruct q eqn:Eq; subst q.
  - unfold interpolated_value. rewrite Eq.
    destruct (cell_value t latitude longitude) as [cv | | | ]; cbn [bind];
      try discriminate.
    destruct (ltb _ _); [discriminate | ].
    intros E. inversion E. subst v. apply H0. reflexivity.
  - rewrite (interpolated_value_Q1 t _ _ Eq).
    apply idw_interpolation_between; try assumption.
    pose proof (quadrant_away t latitude longitude ltac:(congruence)). lra.
  - rewrite (interpolated_value_unfiltered t Q2) by (congruence || exact Eq).
    apply idw_interpolation_between; try assumption.
    pose proof (quadrant_away t latitude longitude ltac:(congruence)). lra.
  - rewrite (interpolated_value_unfiltered t Q3) by (congruence || exact Eq).
    apply idw_interpolation_between; try assumption.
    pose proof (quadrant_away t latitude longitude ltac:(congruence)). lra.
  - rewrite (interpolated_value_unfiltered t Q4) by (congruence || exact Eq).
    apply idw_interpolation_between; try assumption.
    pose proof (quadrant_away t latitude longitude ltac:(congruence)). lra.
Qed.


(** On the flat sample tile, north-west of the centre of cell (1, 1), the
    interpolated value is the height of the tile. *)
Lemma flat_interpolated_nw (h : Z) :
  interpolated_value (flat_tile h) (167 / 4) (-419 / 4) = Ok (IZR h).
Proof.
  unfold interpolated_value. rewrite quadrant_nw, index_nw.
  rewrite (flat_cell_value h 1 1) by (try apply index_nw; try lia; lra).
  cbn [bind fst snd].
  rewrite !flat_cell_value_ip by lia. cbn [bind].
  rewrite mean_loop_all_cells. cbv zeta.
  unfold idw_weight, sum. cbn [map fold_left fst snd].
  set (d0 := distance_p _ _ _). set (d1 := distance_p _ _ _).
  set (d2 := distance_p _ _ _). set (d3 := distance_p _ _ _).
  assert (H0 : 1 < d0) by (unfold d0, cell_centre; rewrite index_nw; apply far_nw; lia).
  assert (H1 : 1 < d1) by (apply far_nw; lia).
  assert (H2 : 1 < d2) by (apply far_nw; lia).
  assert (H3 : 1 < d3) by (apply far_nw; lia).
  destruct (mean_of_equal (IZR h) d0 d1 d2 d3) as [Hw Hm]; try lra.
  cbv zeta in Hw, Hm.
  rewrite (proj2 (eqb_false _ _)) by exact Hw.
  cbn -[IZR]. f_equal. exact Hm.
Qed.

Lemma interpolated_value_between_witness :
  interpolated_value (flat_tile 1500) (167 / 4) (-419 / 4) = Ok 1500
  /\ 1000 <= 1500 <= 2000.
Proof.
  split; [apply flat_interpolated_nw | ].
  apply (interpolated_value_between (flat_tile 1500) (167 / 4) (-419 / 4)).
  - intros h. rewrite (flat_cell_value 1500 1 1)
      by (try apply index_nw; try lia; lra).
    intros E. inversion E. lra.
  - rewrite quadrant_nw, index_nw. cbn [neighbours].
    intros ip h [<- | [<- | [<- | []]]];
      rewrite flat_cell_value_ip by lia; intros E; inversion E; lra.
  - rewrite quadrant_nw, index_nw. cbn [neighbours].
    intros ip [<- | [<- | [<- | []]]];
      apply Rlt_trans with 1; try lra; apply far_nw; lia.
  - apply flat_interpolated_nw.
Defined.


Lemma fold_add_positive (cells : list (R * R)) (w : R) :
  Forall (fun c => 0 < snd c) cells -> 0 <= w ->
  w <= fold_left Rplus (map (fun c => 1 / snd c) cells) w
  /\ (cells <> [] -> 0 < fold_left Rplus (map (fun c => 1 / snd c) cells) w).
Proof.
  intros HF. revert w.
  induction HF as [ | [h d] cells Hd HF IH]; intros w Hw; cbn [map fold_left].
  - split; [lra | congruence].
  - cbn [snd] in *.
    assert (Hi : 0 < 1 / d) by (apply Rdiv_lt_0_compat; lra).
    destruct (IH (w + 1 / d) ltac:(lra)) as [Hle _].
    split; [lra | intros _; lra].
Qed.

(** X6.  In exact arithmetic, in the first quadrant, when the four cells are
    read and the point is at no neighbour's centre: [interpolated_value]
    throws the NODATA error when none of the four heights is valid, and
    returns a value otherwise. *)
Theorem interpolated_value_Q1_nodata (t : grid_float_tile R)
    (latitude longitude h0 : R) (hs : list R) :
  let i0 := index_pair t latitude longitude in
  _quadrant t latitude longitude = Q1 ->
  cell_value t latitude longitude = Ok h0 ->
  read_cells t (neighbours Q1 i0) = Ok hs ->
  (forall ip, In ip (neighbours Q1 i0) ->
              0 < distance_p (cell_centre_ip t ip) latitude longitude) ->
  (forallb (fun h => negb (valid_height t h)) (h0 :: hs) = true ->
   interpolated_value t latitude longitude
   = Throw GRID_FLOAT_NODATA
       (mk_reason "Q1: Insufficient data when interpolating at "
          latitude longitude))
  /\ (forallb (fun h => negb (valid_height t h)) (h0 :: hs) = false ->
      exists v, interpolated_value t latitude longitude = Ok v).
Proof.
  intros i0 Hq E0 Ehs Hdn. subst i0.
  pose proof (quadrant_away t latitude longitude ltac:(congruence)) as Hd0.
  rewrite (interpolated_value_Q1 t _ _ Hq).
  unfold idw_interpolation. rewrite E0, Ehs. cbn [bind]. cbv zeta.
  apply read_cells_each in Ehs.
  unfold index_pair, neighbours in Ehs, Hdn |- *.
  inversion Ehs as [ | ? h1 ? ? E1 Ehs1 ]; subst.
  inversion Ehs1 as [ | ? h2 ? ? E2 Ehs2 ]; subst.
  inversion Ehs2 as [ | ? h3 ? ? E3 Ehs3 ]; subst.
  inversion Ehs3; subst. clear Ehs Ehs1 Ehs2 Ehs3.
  cbn [map combine forallb].
  set (d0 := distance_p (cell_centre t latitude longitude) latitude longitude) in *.
  set (d1 := distance_p (cell_centre_ip t _) _ _).
  set (d2 := distance_p (cell_centre_ip t _) _ _).
  set (d3 := distance_p (cell_centre_ip t _) _ _).
  assert (H1 : 0 < d1) by (apply Hdn; cbn; tauto).
  assert (H2 : 0 < d2) by (apply Hdn; cbn; tauto).
  assert (H3 : 0 < d3) by (apply Hdn; cbn; tauto).
  set (cells := [(h0, d0); (h1, d1); (h2, d2); (h3, d3)]).
  assert (HF : Forall (fun c : R * R => 0 < snd c) cells)
    by (repeat constructor; cbn [snd]; lra).
  set (counted := filter (fun c => valid_height t (fst c)) cells).
  assert (HF' : Forall (fun c : R * R => 0 < snd c) counted).
  { rewrite Forall_forall in *. intros c Hc. apply filter_In in Hc.
    apply HF, Hc. }
  split; intros Hv.
  - assert (Ec : counted = []).
    { unfold counted, cells. cbn [filter fst].
      rewrite !andb_true_iff, !negb_true_iff in Hv.
      destruct Hv as (-> & -> & -> & -> & _). reflexivity. }
    rewrite Ec. unfold idw_weight, sum. cbn [map fold_left].
    rewrite (proj2 (eqb_true _ _)) by reflexivity. reflexivity.
  - assert (Ec : counted <> []).
    { unfold counted, cells. cbn [filter fst].
      destruct (valid_height t h0), (valid_height t h1),
               (valid_height t h2), (valid_height t h3);
        cbn in Hv; congruence. }
    destruct (fold_add_positive counted 0 HF' ltac:(lra)) as [_ Hpos].
    specialize (Hpos Ec).
    assert (Hne : idw_weight counted <> @of_int R arith 0%Z).
    { unfold idw_weight, sum. intros Hz.
      change (@of_int R arith 0%Z) with 0 in Hz.
      change (@of_int R arith 1%Z) with 1 in Hz.
      change (@add R arith) with Rplus in Hz.
      change (@div R arith) with Rdiv in Hz. lra. }
    rewrite (proj2 (eqb_false _ _) Hne). eexists. reflexivity.
Qed.


Lemma interpolated_value_Q1_nodata_witness :
  let t := flat_tile (-9999) in
  let cells := [IZR (-9999); IZR (-9999); IZR (-9999); IZR (-9999)] in
  (forallb (fun h => negb (valid_height t h)) cells = true ->
   interpolated_value t (167 / 4) (-417 / 4)
   = Throw GRID_FLOAT_NODATA
       (mk_reason "Q1: Insufficient data when interpolating at "
          (167 / 4) (-417 / 4)))
  /\ (forallb (fun h => negb (valid_height t h)) cells = false ->
      exists v, interpolated_value t (167 / 4) (-417 / 4) = Ok v).
Proof.
  apply (interpolated_value_Q1_nodata (flat_tile (-9999)) (167 / 4) (-417 / 4)
           (IZR (-9999)) [IZR (-9999); IZR (-9999); IZR (-9999)]).
  - apply quadrant_ne.
  - apply (flat_cell_value (-9999) 1 1); try apply index_ne; try lia; lra.
  - rewrite index_ne. cbn [neighbours read_cells].
    rewrite !flat_cell_value_ip by lia. reflexivity.
  - rewrite index_ne. cbn [neighbours].
    intros ip [<- | [<- | [<- | []]]];
      apply Rlt_trans with 1; try lra; apply far_ne; lia.
Defined.

End MeanFacts.

(** ** Distances, destinations and bearings *)

Module GeodesicFacts.
Import Real RealLaws RealEvaluation.
Local Open Scope R_scope.

(** X8.  In exact arithmetic the distance is the same in both directions. *)
Theorem distance_symmetric (lat1 long1 lat2 long2 : R) :
  distance lat1 long1 lat2 long2 = distance lat2 long2 lat1 long1.
Proof.
  rewrite !distance_unfold. cbv zeta.
  replace ((lat1 - lat2) / 2 * DTOR) with (- ((lat2 - lat1) / 2 * DTOR))
    by (unfold Rdiv; ring).
  replace ((long1 - long2) / 2 * DTOR) with (- ((long2 - long1) / 2 * DTOR))
    by (unfold Rdiv; ring).
  rewrite !sin_neg.
  match goal with
  | |- _ * (2 * arctan2 (R_sqrt.sqrt ?a) _) = _ * (2 * arctan2 (R_sqrt.sqrt ?b) _) =>
      replace b with a by ring
  end.
  reflexivity.
Qed.

(** X9.  In exact arithmetic the distance from a point to itself is zero. *)
Theorem distance_self (lat long : R) : distance lat long lat long = 0.
Proof.
  rewrite distance_unfold. cbv zeta.
  replace ((lat - lat) / 2 * DTOR) with 0 by (unfold Rdiv; ring).
  replace ((long - long) / 2 * DTOR) with 0 by (unfold Rdiv; ring).
  rewrite sin_0.
  match goal with
  | |- _ * (2 * arctan2 (R_sqrt.sqrt ?a) _) = _ => replace a with 0 by ring
  end.
  rewrite Rminus_0_r, sqrt_0, sqrt_1. unfold arctan2.
  destruct (Rlt_dec 0 1); [ | lra].
  unfold Rdiv. rewrite Rmult_0_l, atan_0. ring.
Qed.


(** X11.  In exact arithmetic the correction for the curvature of the Earth is
    never negative, and up to half way round it grows with the distance. *)
Theorem curvature_correction_grows (d1 d2 : R) :
  0 <= d1 <= d2 -> d2 <= RE * Rtrigo1.PI ->
  0 <= curvature_correction d1 <= curvature_correction d2.
Proof.
  intros Hd Hhalf. unfold curvature_correction.
  change (@cos R libm) with Rtrigo_def.cos.
  cbn -[IZR RE]. rewrite RE_val in *.
  assert (H1 : 0 <= d1 / 6371000) by (apply Rle_mult_inv_pos; lra).
  assert (H12 : d1 / 6371000 <= d2 / 6371000) by (unfold Rdiv; nra).
  assert (H2 : d2 / 6371000 <= Rtrigo1.PI).
  { apply Rmult_le_reg_r with 6371000; [lra | ].
    unfold Rdiv. rewrite Rmult_assoc, Rinv_l by lra. lra. }
  pose proof (COS_bound (d1 / 6371000)) as [_ Hb].
  pose proof (cos_decr_1 (d1 / 6371000) (d2 / 6371000)
                ltac:(lra) ltac:(lra) ltac:(lra) ltac:(lra) H12) as Hc.
  nra.
Qed.

Lemma curvature_correction_grows_witness :
  0 <= curvature_correction (D := R) 1000 <= curvature_correction (D := R) 2000.
Proof.
  apply curvature_correction_grows; [lra | ].
  rewrite RE_val. pose proof PI_gt_3. lra.
Defined.

(** *** Bearings *)

Lemma RTOD_bounds : 57 < RTOD (D := R) < 58.
Proof. rewrite RTOD_val. split; lra. Qed.

(** The angle of a ratio of at most one, in degrees. *)
Lemma bearing_angle (n m : Z) :
  (0 < n <= m)%Z ->
  0 < atanf (float_ratio (D := R) n m) * RTOD < 58.
Proof.
  intros Hnm. pose proof RTOD_bounds as HR. pose proof PI_4 as H4.
  unfold float_ratio. cbn -[IZR RTOD].
  assert (Hn : 0 < IZR n) by (apply IZR_lt; lia).
  assert (Hm : IZR n <= IZR m) by (apply IZR_le; lia).
  assert (Hq : 0 < IZR n / IZR m <= 1).
  { split; [apply Rdiv_lt_0_compat; lra | ].
    apply Rmult_le_reg_r with (IZR m); [lra | ].
    unfold Rdiv. rewrite Rmult_assoc, Rinv_l by lra. lra. }
  assert (Hlo : 0 < atan (IZR n / IZR m))
    by (rewrite <- atan_0; apply atan_increasing; lra).
  assert (Hhi : atan (IZR n / IZR m) <= 1).
  { destruct Hq as [_ [Hq | ->]].
    - apply Rlt_le. apply Rlt_le_trans with (atan 1);
        [apply atan_increasing; exact Hq | rewrite atan_1; lra].
    - rewrite atan_1. lra. }
  nra.
Qed.

Ltac bearing_branch :=
  repeat match goal with
  | |- context [(?a =? ?b)%Z] => destruct (Z.eqb_spec a b); try lia
  | |- context [(?a >? ?b)%Z] => rewrite (Z.gtb_ltb a b)
  | |- context [(?a <? ?b)%Z] => destruct (Z.ltb_spec a b); try lia
  end; cbn [andb].

(** X12.  In exact arithmetic, for offsets whose components and their
    opposites are values of [int], the bearing of an offset off the axes lies
    strictly inside the compass quadrant of the offset: north-east in (0, 90),
    south-east in (90, 180), south-west in (180, 270) and north-west in
    (270, 360). *)
Theorem bearing_quadrant (delta_x delta_y : Z) :
  (0 < delta_x <= INT_MAX)%Z -> (0 < delta_y <= INT_MAX)%Z ->
  0 < bearing (D := R) delta_x delta_y < 90
  /\ 90 < bearing (D := R) delta_x (- delta_y) < 180
  /\ 180 < bearing (D := R) (- delta_x) (- delta_y) < 270
  /\ 270 < bearing (D := R) (- delta_x) delta_y < 360.
Proof.
  intros [Hx _] [Hy _].
  assert (Hax : Z.abs delta_x = delta_x) by lia.
  assert (Hay : Z.abs delta_y = delta_y) by lia.
  destruct (Z_lt_le_dec delta_x delta_y) as [Hlt | Hge].
  - pose proof (bearing_angle delta_x delta_y ltac:(lia)) as Ha.
    repeat split; unfold bearing; rewrite ?Z.abs_opp, ?Hax, ?Hay;
      bearing_branch; cbn -[IZR RTOD atanf float_ratio]; lra.
  - pose proof (bearing_angle delta_y delta_x ltac:(lia)) as Ha.
    destruct (Z.eq_dec delta_x delta_y) as [-> | Hne].
    + repeat split; unfold bearing; rewrite ?Z.abs_opp, ?Hay;
        bearing_branch; cbn -[IZR RTOD atanf float_ratio]; lra.
    + repeat split; unfold bearing; rewrite ?Z.abs_opp, ?Hax, ?Hay;
        bearing_branch; cbn -[IZR RTOD atanf float_ratio]; lra.
Qed.

Lemma bearing_quadrant_witness :
  0 < bearing (D := R) 3 4 < 90
  /\ 90 < bearing (D := R) 3 (- 4) < 180
  /\ 180 < bearing (D := R) (- 3) (- 4) < 270
  /\ 270 < bearing (D := R) (- 3) 4 < 360.
Proof. apply bearing_quadrant; unfold INT_MAX; lia. Defined.

End GeodesicFacts.

(** ** Names: writing and reading numbers *)

Section NamingRoundTrip.

Lemma create_string_length (c : ascii) (n : nat) :
  String.length (create_string c n) = n.
Proof. induction n as [ | n IH]; [reflexivity | cbn; now rewrite IH]. Qed.

Lemma append_length (s1 s2 : string) :
  String.length (s1 ++ s2) = (String.length s1 + String.length s2)%nat.
Proof. induction s1 as [ | c s1 IH]; [reflexivity | cbn; now rewrite IH]. Qed.

(** The length of a padded string, whatever the count of pad characters. *)
Lemma pad_string_size (s : string) (len : nat) (pad_side : pad_direction)
    (pad_char : ascii) :
  String.length (pad_string s len pad_side pad_char)
  = Nat.max len (String.length s).
Proof.
  unfold pad_string.
  destruct (Nat.leb_spec len (String.length s)) as [H | H]; [lia | ].
  destruct pad_side; rewrite append_length, create_string_length; lia.
Qed.

(** X13.  Padding never shortens: when the count of pad characters is a
    value of [int], as [create_string] takes it, the padded string has [len]
    characters, or the length of the string when that is more. *)
Theorem pad_string_length (s : string) (len : nat) (pad_side : pad_direction)
    (pad_char : ascii) :
  Z.of_nat (len - String.length s) <= INT_MAX ->
  String.length (pad_string s len pad_side pad_char)
  = Nat.max len (String.length s).
Proof.
  intros _. unfold pad_string.
  destruct (Nat.leb_spec len (String.length s)) as [H | H]; [lia | ].
  destruct pad_side; rewrite append_length, create_string_length; lia.
Qed.

Lemma pad_string_length_witness :
  String.length (pad_string "41" 5 PAD_LEFT "0") = Nat.max 5 (String.length "41").
Proof. apply pad_string_length. vm_compute. discriminate. Defined.

(** The digits of [d], most significant first, read from [acc]. *)
Lemma read_digits_uint (d : Decimal.uint) (acc : Z) :
  read_digits (NilEmpty.string_of_uint d) acc
  = acc * 10 ^ Z.of_N (DecimalPos.Unsigned.usize d)
    + Z.of_N (DecimalPos.Unsigned.of_lu (Decimal.rev d)).
Proof.
  revert acc.
  induction d as [ | d IH | d IH | d IH | d IH | d IH | d IH | d IH | d IH
                   | d IH | d IH ]; intros acc;
    [ cbn; lia | .. ];
    cbn [NilEmpty.string_of_uint read_digits];
    match goal with
    | |- context [digit_of ?c] =>
        let v := eval vm_compute in (digit_of c) in
        change (digit_of c) with v
    end;
    cbv iota beta;
    unfold Decimal.rev; cbn [Decimal.revapp];
    rewrite DecimalPos.Unsigned.of_lu_revapp, IH;
    cbn [DecimalPos.Unsigned.usize DecimalPos.Unsigned.of_lu];
    rewrite N2Z.inj_succ, Z.pow_succ_r by lia;
    rewrite N2Z.inj_add, N2Z.inj_mul, N2Z.inj_pow;
    cbn [N.mul N.add Z.of_N Z.of_nat Nat.sub]; try lia.
Qed.

Lemma read_digits_to_uint (p : positive) :
  read_digits (NilEmpty.string_of_uint (Pos.to_uint p)) 0 = Z.pos p.
Proof.
  rewrite read_digits_uint, <- DecimalPos.Unsigned.of_uint_alt, DecimalPos.Unsigned.of_to.
  reflexivity.
Qed.

(** The first character of a written number is a digit. *)
Lemma string_of_uint_head (d : Decimal.uint) :
  d <> Decimal.Nil ->
  exists c r, NilEmpty.string_of_uint d = String c r
              /\ is_space c = false /\ c <> "-"%char /\ c <> "+"%char.
Proof.
  intros Hd.
  destruct d; [congruence | ..]; cbn [NilEmpty.string_of_uint];
    eexists; eexists; (split; [reflexivity | ]);
    (split; [reflexivity | split; discriminate]).
Qed.

Lemma from_string_unsigned (c : ascii) (r : string) :
  is_space c = false -> c <> "-"%char -> c <> "+"%char ->
  from_string (String c r)
  = Z.max INT_MIN (Z.min INT_MAX (read_digits (String c r) 0)).
Proof.
  intros Hs Hm Hp. unfold from_string. cbn [skip_space]. rewrite Hs.
  destruct c as [[] [] [] [] [] [] [] []]; try reflexivity; congruence.
Qed.

Lemma from_string_minus (r : string) :
  from_string (String "-" r)
  = Z.max INT_MIN (Z.min INT_MAX (- read_digits r 0)).
Proof. reflexivity. Qed.

Lemma string_of_uint_nonnil (d : Decimal.uint) :
  d <> Decimal.Nil -> NilZero.string_of_uint d = NilEmpty.string_of_uint d.
Proof. destruct d; [congruence | reflexivity ..]. Qed.

(** X14.  Writing an integer with [to_string] and reading it back with
    [from_string<int>] gives the number, brought to the range of [int]. *)
Theorem from_string_to_string (val : Z) :
  from_string (to_string val) = Z.max INT_MIN (Z.min INT_MAX val).
Proof.
  unfold to_string. destruct val as [ | p | p]; [reflexivity | | ];
    cbn [Z.to_int NilZero.string_of_int];
    pose proof (DecimalPos.Unsigned.to_uint_nonnil p) as Hn;
    rewrite (string_of_uint_nonnil _ Hn).
  - destruct (string_of_uint_head _ Hn) as (c & r & E & Hs & Hm & Hp).
    rewrite E, (from_string_unsigned _ _ Hs Hm Hp), <- E.
    now rewrite read_digits_to_uint.
  - rewrite from_string_minus, read_digits_to_uint. reflexivity.
Qed.

End NamingRoundTrip.

Section NameRange.

Lemma digit_of_range (c : ascii) (d : Z) :
  digit_of c = Some d -> 0 <= d <= 9.
Proof.
  unfold digit_of.
  destruct (Nat.leb_spec 48 (nat_of_ascii c)), (Nat.leb_spec (nat_of_ascii c) 57);
    cbn [andb]; intros E; inversion E; lia.
Qed.

Lemma read_digits_range (s : string) (acc : Z) :
  0 <= acc ->
  acc <= read_digits s acc
  /\ read_digits s acc < (acc + 1) * 10 ^ Z.of_nat (String.length s).
Proof.
  revert acc. induction s as [ | c s IH]; intros acc Hacc.
  - cbn. lia.
  - cbn [read_digits String.length]. rewrite Nat2Z.inj_succ, Z.pow_succ_r by lia.
    destruct (digit_of c) as [d | ] eqn:E.
    + apply digit_of_range in E.
      destruct (IH (acc * 10 + d) ltac:(lia)) as [Hlo Hhi].
      split; [lia | ].
      eapply Z.lt_le_trans; [exact Hhi | ].
      pose proof (Z.pow_pos_nonneg 10 (Z.of_nat (String.length s))
                    ltac:(lia) ltac:(lia)).
      nia.
    + pose proof (Z.pow_pos_nonneg 10 (Z.of_nat (String.length s))
                    ltac:(lia) ltac:(lia)).
      nia.
Qed.

Lemma skip_space_length (s : string) :
  (String.length (skip_space s) <= String.length s)%nat.
Proof.
  induction s as [ | c s IH]; cbn; [lia | ].
  destruct (is_space c); cbn; lia.
Qed.

Lemma read_digits_below (s : string) (k : nat) :
  (String.length s <= k)%nat ->
  0 <= read_digits s 0 < 10 ^ Z.of_nat k.
Proof.
  intros Hk. destruct (read_digits_range s 0 ltac:(lia)) as [Hlo Hhi].
  split; [exact Hlo | ].
  eapply Z.lt_le_trans; [exact Hhi | ].
  rewrite Z.mul_1_l. apply Z.pow_le_mono_r; lia.
Qed.

(** A string of at most [k + 1] characters, [k + 1] at most nine, is read as
    a number of at most [k + 1] digits, or with a sign and at most [k]. *)
Lemma from_string_range (s : string) (k : nat) :
  (String.length s <= S k)%nat -> (k <= 8)%nat ->
  - 10 ^ Z.of_nat k < from_string s < 10 ^ Z.of_nat (S k).
Proof.
  intros Hs Hk.
  assert (H9 : 10 ^ Z.of_nat (S k) <= 10 ^ 9)
    by (apply Z.pow_le_mono_r; lia).
  assert (Hkk : 10 ^ Z.of_nat k < 10 ^ Z.of_nat (S k))
    by (apply Z.pow_lt_mono_r; lia).
  change (10 ^ 9) with 1000000000 in H9.
  pose proof (skip_space_length s) as Hskip.
  unfold from_string.
  destruct (skip_space s) as [ | c r] eqn:E.
  - cbn. unfold INT_MIN, INT_MAX.
    pose proof (Z.pow_pos_nonneg 10 (Z.of_nat k) ltac:(lia) ltac:(lia)). lia.
  - cbn [String.length] in Hskip.
    pose proof (read_digits_below r k ltac:(lia)) as Hr.
    pose proof (read_digits_below (String c r) (S k)
                  ltac:(cbn [String.length]; lia)) as Hcr.
    unfold INT_MIN, INT_MAX.
    destruct c as [[] [] [] [] [] [] [] []]; lia.
Qed.

Lemma substring_length (n m : nat) (s : string) :
  (String.length (substring n m s) <= m)%nat.
Proof.
  revert m s. induction n as [ | n IH]; intros m s.
  - revert s. induction m as [ | m IHm]; intros s; destruct s; cbn; try lia.
    specialize (IHm s). lia.
  - destruct s; cbn; [destruct m; cbn; lia | apply IH].
Qed.

(** The two parts of a name, each read from its characters. *)
Lemma name_parts_range (basefilename : string) :
  -10 < from_string (substring 1 2 basefilename) < 100
  /\ -100 < from_string (substring 4 3 basefilename) < 1000.
Proof.
  pose proof (from_string_range _ 1 (substring_length 1 2 basefilename)
                ltac:(lia)) as H2.
  pose proof (from_string_range _ 2 (substring_length 4 3 basefilename)
                ltac:(lia)) as H3.
  change (10 ^ Z.of_nat 1) with 10 in H2. change (10 ^ Z.of_nat 2) with 100 in *.
  change (10 ^ Z.of_nat 3) with 1000 in H3.
  split; assumption.
Qed.

(** X15.  Whatever the name, as long as each of its two parts holds
    something to read (a character that is not white space), the code read
    from it is between -9099 and 99999: the latitude part is read from two
    characters and the longitude part from three. *)
Theorem llc_of_name_range (basefilename : string) (code : Z) :
  has_token (substring 1 2 basefilename) = true ->
  has_token (substring 4 3 basefilename) = true ->
  llc_of_name basefilename = Some code -> -9099 <= code <= 99999.
Proof.
  intros _ _. unfold llc_of_name, substr.
  destruct (1 <=? String.length basefilename)%nat; [ | discriminate].
  destruct (4 <=? String.length basefilename)%nat; [ | discriminate].
  intros E. inversion E as [E']. clear E E'.
  destruct (name_parts_range basefilename) as [H2 H3].
  lia.
Qed.

Lemma llc_of_name_range_witness :
  llc_of_name "n41w106" = Some 41106 /\ -9099 <= 41106 <= 99999.
Proof.
  split; [reflexivity | ].
  apply (llc_of_name_range "n41w106"); reflexivity.
Defined.

(** X16.  A code of six digits or more is not the code of its own base
    filename: [llc(base_filename(c)) != c] for [c] above 99999. *)
Theorem base_filename_large_code (c : Z) :
  99999 < c -> llc_of_name (base_filename c) <> Some c.
Proof.
  intros Hc. unfold llc_of_name, substr.
  destruct (1 <=? String.length (base_filename c))%nat; [ | discriminate].
  destruct (4 <=? String.length (base_filename c))%nat; [ | discriminate].
  destruct (name_parts_range (base_filename c)) as [H2 H3].
  intros E.
  assert (E' : from_string (substring 1 2 (base_filename c)) * 1000
               + from_string (substring 4 3 (base_filename c)) = c)
    by congruence.
  lia.
Qed.

Lemma base_filename_large_code_witness :
  llc_of_name (base_filename 100000) <> Some 100000.
Proof. apply base_filename_large_code. lia. Defined.

End NameRange.

Module NameOverloads.
Import Real.

Lemma trunc_range (x : R) (lo hi : Z) :
  (0 <= lo)%Z -> (IZR lo <= x < IZR hi)%R -> (lo <= trunc x < hi)%Z.
Proof.
  intros Hlo Hx. apply IZR_le in Hlo. unfold trunc.
  destruct (Rle_dec 0 x) as [ _ | Hneg ]; [ | lra ].
  destruct (base_Int_part x) as [H1 H2].
  split.
  - apply Z.lt_succ_r. apply lt_IZR. rewrite succ_IZR. lra.
  - apply lt_IZR. lra.
Qed.

(** A number of two digits is written on two characters. *)
Definition two_digits (a : Z) : bool :=
  (String.length (to_string a) =? 2)%nat.

Lemma two_digits_all : forall a, 10 <= a <= 99 -> two_digits a = true.
Proof.
  assert (H : forallb (fun n => two_digits (Z.of_nat n + 10)) (seq 0 90) = true)
    by (vm_compute; reflexivity).
  rewrite forallb_forall in H.
  intros a Ha. specialize (H (Z.to_nat (a - 10))).
  rewrite Z2Nat.id in H by lia. replace (a - 10 + 10) with a in H by lia.
  apply H, in_seq. lia.
Qed.

Lemma one_digit_all : forall a, 0 <= a <= 9 -> String.length (to_string a) = 1%nat.
Proof.
  intros a Ha.
  assert (E : a = 0 \/ a = 1 \/ a = 2 \/ a = 3 \/ a = 4 \/ a = 5 \/ a = 6
              \/ a = 7 \/ a = 8 \/ a = 9) by lia.
  repeat (destruct E as [-> | E]; [reflexivity | ]). subst a. reflexivity.
Qed.

(** The two parts of the code of a point of a square degree. *)
Lemma tile_parts (latitude longitude : R) (a b : Z) :
  0 <= a -> 0 <= b <= 999 ->
  (IZR a - 1 <= latitude < IZR a)%R ->
  (- IZR b < longitude <= 1 - IZR b)%R ->
  trunc (latitude + 1) = a /\ trunc (- longitude + 1) = b.
Proof.
  intros Ha Hb Hlat Hlon. split.
  - pose proof (trunc_range (latitude + 1) a (a + 1) Ha) as H.
    rewrite plus_IZR in H. specialize (H ltac:(lra)). lia.
  - pose proof (trunc_range (- longitude + 1) b (b + 1) ltac:(lia)) as H.
    rewrite plus_IZR in H. specialize (H ltac:(lra)). lia.
Qed.

(** X18.  In exact arithmetic, for a point whose tile has a latitude part [a] of
    two digits and a longitude part [b] between 0 and 999, the name made
    from the coordinates is the name made from the tile code. *)
Theorem base_filename_overloads_agree (latitude longitude : R) (a b : Z) :
  10 <= a <= 99 -> 0 <= b <= 999 ->
  (IZR a - 1 <= latitude < IZR a)%R ->
  (- IZR b < longitude <= 1 - IZR b)%R ->
  base_filename_ll latitude longitude = base_filename (llc latitude longitude).
Proof.
  intros Ha Hb Hlat Hlon.
  destruct (tile_parts latitude longitude a b ltac:(lia) Hb Hlat Hlon)
    as [Ea Eb].
  assert (Ec : llc latitude longitude = a * 1000 + b).
  { unfold llc. cbn -[IZR].
    replace (- (longitude - 1))%R with (- longitude + 1)%R by ring.
    rewrite Ea, Eb. reflexivity. }
  unfold base_filename_ll, base_filename. rewrite Ec.
  change (to_int (latitude + of_int 1)%num) with (trunc (latitude + 1)).
  change (to_int (- longitude + of_int 1)%num) with (trunc (- longitude + 1)).
  rewrite Ea, Eb.
  replace (Z.quot (a * 1000 + b) 1000) with a
    by (apply Z.quot_unique with b; lia).
  replace (Z.rem (a * 1000 + b) 1000) with b
    by (apply Z.rem_unique with a; lia).
  pose proof (two_digits_all a Ha) as H2. unfold two_digits in H2.
  apply Nat.eqb_eq in H2.
  cbv zeta. do 2 f_equal.
  unfold pad_string at 1. rewrite H2. reflexivity.
Qed.

(** X19.  With a latitude part of one digit the two names differ: the name made
    from the coordinates has the digit alone, the name made from the code
    has it after a zero. *)
Theorem base_filename_overloads_differ (latitude longitude : R) (a b : Z) :
  0 <= a <= 9 -> 0 <= b <= 999 ->
  (IZR a - 1 <= latitude < IZR a)%R ->
  (- IZR b < longitude <= 1 - IZR b)%R ->
  base_filename_ll latitude longitude <> base_filename (llc latitude longitude).
Proof.
  intros Ha Hb Hlat Hlon.
  destruct (tile_parts latitude longitude a b ltac:(lia) Hb Hlat Hlon)
    as [Ea Eb].
  assert (Ec : llc latitude longitude = a * 1000 + b).
  { unfold llc. cbn -[IZR].
    replace (- (longitude - 1))%R with (- longitude + 1)%R by ring.
    rewrite Ea, Eb. reflexivity. }
  unfold base_filename_ll, base_filename. rewrite Ec.
  change (to_int (latitude + of_int 1)%num) with (trunc (latitude + 1)).
  change (to_int (- longitude + of_int 1)%num) with (trunc (- longitude + 1)).
  rewrite Ea, Eb.
  replace (Z.quot (a * 1000 + b) 1000) with a
    by (apply Z.quot_unique with b; lia).
  replace (Z.rem (a * 1000 + b) 1000) with b
    by (apply Z.rem_unique with a; lia).
  cbv zeta. intros E. apply (f_equal String.length) in E.
  rewrite !append_length, !pad_string_size, (one_digit_all a Ha) in E.
  cbn in E. lia.
Qed.

Lemma base_filename_overloads_agree_witness :
  base_filename_ll (IZR 405 / 10)%R (- IZR 1053 / 10)%R
  = base_filename (llc (IZR 405 / 10)%R (- IZR 1053 / 10)%R).
Proof.
  apply (base_filename_overloads_agree _ _ 41 106); try lia; lra.
Defined.

Lemma base_filename_overloads_differ_witness :
  base_filename_ll (IZR 55 / 10)%R (- IZR 1053 / 10)%R
  <> base_filename (llc (IZR 55 / 10)%R (- IZR 1053 / 10)%R).
Proof.
  apply (base_filename_overloads_differ _ _ 6 106); try lia; lra.
Defined.

End NameOverloads.

(** ** The tile fetcher: what it runs and removes *)

Section FetchTrace.
Variable FS : Type.
Variable os_open : FS -> string -> option N.
Variable os_stat : FS -> string -> option bool.
Variable os_mkdir : string -> FS -> Z * FS.
Variable os_unlink : string -> FS -> FS.
Variable os_system : string -> FS -> FS.
Variable debug : bool.

(** Whatever the state it starts from, [m] only adds to the trace, and every
    event it adds satisfies [P]. *)
Definition appends {A : Type} (P : event -> Prop) (m : M FS A) : Prop :=
  forall w, exists l, trace FS (snd (m w)) = (trace FS w ++ l)%list /\ Forall P l.

Lemma appends_nothing {A : Type} (P : event -> Prop) (m : M FS A) :
  (forall w, snd (m w) = w) -> appends P m.
Proof.
  intros H w. exists []. rewrite H, app_nil_r. split; [reflexivity | constructor].
Qed.

Lemma appends_one {A : Type} (P : event -> Prop) (m : M FS A) (e : event) :
  P e -> (forall w, trace FS (snd (m w)) = (trace FS w ++ [e])%list) -> appends P m.
Proof.
  intros He H w. exists [e]. split; [apply H | repeat constructor; exact He].
Qed.

Lemma appends_bind {A B : Type} (P : event -> Prop) (m : M FS A)
    (k : A -> M FS B) :
  appends P m -> (forall a, appends P (k a)) -> appends P (bindM FS m k).
Proof.
  intros Hm Hk w. unfold bindM.
  destruct (Hm w) as (l1 & E1 & F1).
  destruct (m w) as [[a | s | ] w'] eqn:E; cbn [snd] in *.
  - destruct (Hk a w') as (l2 & E2 & F2).
    exists (l1 ++ l2)%list. rewrite E2, E1, app_assoc.
    split; [reflexivity | apply Forall_app; split; assumption].
  - exists l1. split; assumption.
  - exists l1. split; assumption.
Qed.

Lemma bindM_ret {A B : Type} (a : A) (k : A -> M FS B) :
  bindM FS (ret FS a) k = k a.
Proof. reflexivity. Qed.

Lemma appends_ret {A : Type} (P : event -> Prop) (a : A) :
  appends P (ret FS a).
Proof. apply appends_nothing. reflexivity. Qed.

Lemma appends_when (P : event -> Prop) (b : bool) (m : M FS unit) :
  appends P m -> appends P (when FS b m).
Proof. intros Hm. destruct b; [exact Hm | apply appends_ret]. Qed.

Lemma appends_emit (P : event -> Prop) (e : event) :
  P e -> appends P (emit FS e).
Proof. intros He. apply (appends_one P _ e He). reflexivity. Qed.

Lemma appends_system (P : event -> Prop) (command : string) :
  P (System command) -> appends P (system FS os_system command).
Proof. intros He. apply (appends_one P _ _ He). reflexivity. Qed.

Lemma appends_file_exists (P : event -> Prop) (filename : string) :
  appends P (file_exists FS os_open filename).
Proof. apply appends_nothing. reflexivity. Qed.

Lemma appends_file_empty (P : event -> Prop) (filename : string) :
  appends P (file_empty FS os_open filename).
Proof. apply appends_nothing. reflexivity. Qed.

Lemma appends_file_delete (P : event -> Prop) (filename : string) :
  P (Unlink filename) -> appends P (file_delete FS os_open os_unlink filename).
Proof.
  intros He. unfold file_delete.
  apply appends_bind; [apply appends_file_exists | intros e].
  apply appends_when. apply (appends_one P _ _ He). reflexivity.
Qed.

Lemma appends_directory_create_if_necessary (P : event -> Prop)
    (dirname : string) :
  P (Mkdir dirname) ->
  appends P (directory_create_if_necessary FS os_stat os_mkdir dirname).
Proof.
  intros He. unfold directory_create_if_necessary.
  apply appends_bind; [apply appends_nothing; reflexivity | intros e].
  apply appends_when. unfold directory_create.
  apply appends_bind.
  - apply (appends_one P _ _ He). intros w.
    destruct (os_mkdir dirname (fs FS w)). reflexivity.
  - intros st. destruct (Z.eqb st 0);
      apply appends_nothing; reflexivity.
Qed.

(** What the fetcher may leave in the trace: lines of output, the removal
    of [archive], the creation of [directory], and lines for [system] that
    begin as its three commands do. *)
Definition fetch_event (archive directory : string) (e : event) : Prop :=
  match e with
  | Cout _ | Cerr _ => True
  | Unlink filename => filename = archive
  | Mkdir dirname => dirname = directory
  | System command =>
      prefix "wget -q -O " command = true
      \/ prefix "unzip -qq -o -d " command = true
      \/ prefix "mv " command = true
  end.

Lemma prefix_append (p s : string) : prefix p (p ++ s) = true.
Proof.
  induction p as [ | c p IH]; cbn; [destruct s; reflexivity | ].
  destruct (ascii_dec c c); [exact IH | congruence].
Qed.

Lemma appends_download_loop (archive directory remote_directory : string)
    (remote_filenames : list string) (n : Z) :
  appends (fetch_event archive directory)
    (download_loop FS os_open os_unlink os_system debug remote_directory
       archive remote_filenames n).
Proof.
  revert n. induction remote_filenames as [ | name rest IH]; intros n;
    cbn [download_loop]; [apply appends_ret | ].
  apply appends_bind; [apply appends_file_exists | intros e].
  apply appends_bind.
  - apply appends_when.
    apply appends_bind; [apply appends_emit; exact I | intros _].
    apply appends_bind;
      [apply appends_when, appends_emit; exact I | intros _].
    apply appends_system. left.
    apply (prefix_append "wget -q -O ").
  - intros _. apply appends_bind; [apply appends_file_empty | intros empty].
    destruct empty; [ | apply appends_ret].
    apply appends_bind; [apply appends_file_delete; reflexivity | intros _].
    apply IH.
Qed.

Lemma appends_unpack (archive directory What what local_dirname
                      default_name alternative_name : string) :
  appends (fetch_event archive directory)
    (unpack FS os_open os_system debug What what directory local_dirname
       archive default_name alternative_name).
Proof.
  unfold unpack.
  apply appends_bind;
    [apply appends_system; right; left;
     apply (prefix_append "unzip -qq -o -d ") | intros _].
  apply appends_bind; [apply appends_file_exists | intros e].
  apply appends_when.
  apply appends_bind;
    [apply appends_when, appends_emit; exact I | intros _].
  apply appends_bind;
    [apply appends_system; right; left;
     apply (prefix_append "unzip -qq -o -d ") | intros _].
  apply appends_bind; [apply appends_file_exists | intros e'].
  apply appends_bind.
  - destruct e'; [apply appends_ret | ].
    apply appends_bind; [apply appends_emit; exact I | intros _].
    apply appends_nothing. reflexivity.
  - intros _. apply appends_system. right; right.
    apply (prefix_append "mv ").
Qed.

(** X20.  Whatever the operating system does and whatever state the call
    starts from, [download_if_necessary] deletes no file but the local
    archive of the tile and creates no directory but [local_directory], and
    every line it hands to [system] begins with "wget -q -O ",
    "unzip -qq -o -d " or "mv ".  The names are pasted into those lines as
    they are: what a shell then runs for a directory name with spaces or
    other characters of its own is not said here. *)
Theorem download_if_necessary_events (llc : Z) (local_directory : string)
    (w : world FS) :
  exists added,
    trace FS (snd (download_if_necessary FS os_open os_stat os_mkdir os_unlink
                     os_system debug llc local_directory w))
    = (trace FS w ++ added)%list
    /\ (forall filename, In (Unlink filename) added ->
          local_tile_filename llc local_directory = Some filename)
    /\ (forall dirname, In (Mkdir dirname) added -> dirname = local_directory)
    /\ (forall command, In (System command) added ->
          prefix "wget -q -O " command = true
          \/ prefix "unzip -qq -o -d " command = true
          \/ prefix "mv " command = true).
Proof.
  unfold local_tile_filename, dirname_with_slash.
  destruct (last_char local_directory) as [c | ] eqn:Ec.
  - set (archive := (local_directory ++ (if Ascii.eqb c "/" then "" else "/"))
                    ++ base_filename llc ++ ".zip").
    assert (H : appends (fetch_event archive local_directory)
                  (download_if_necessary FS os_open os_stat os_mkdir os_unlink
                     os_system debug llc local_directory)).
    { unfold download_if_necessary. rewrite Ec. cbn [lift].
      rewrite bindM_ret. cbv zeta. fold archive.
      apply appends_bind; [apply appends_file_exists | intros he].
      apply appends_bind; [apply appends_file_empty | intros hm].
      apply appends_bind; [apply appends_file_exists | intros de].
      apply appends_bind; [apply appends_file_empty | intros dm].
      destruct (negb _); [apply appends_ret | ].
      apply appends_bind;
        [apply appends_directory_create_if_necessary; reflexivity | intros _].
      apply appends_bind; [ | intros downloaded].
      - apply appends_download_loop.
      - apply appends_bind; [apply appends_emit; exact I | intros _].
        apply appends_bind.
        + destruct downloaded; [apply appends_ret | ].
          apply appends_bind; [apply appends_emit; exact I | intros _].
          apply appends_nothing. reflexivity.
        + intros _.
          apply appends_bind; [ | intros _ ]; apply appends_unpack. }
    destruct (H w) as (added & E & F). exists added.
    split; [exact E | ]. rewrite Forall_forall in F.
    repeat split.
    + intros filename Hin. apply F in Hin. cbn in Hin. now subst.
    + intros dirname Hin. apply F in Hin. exact Hin.
    + intros command Hin. apply F in Hin. exact Hin.
  - exists []. unfold download_if_necessary. rewrite Ec. cbn.
    rewrite app_nil_r. repeat split; intros ? [].
Qed.


Lemma bindM_Done {A B : Type} (m : M FS A) (k : A -> M FS B) (w w' : world FS)
    (a : A) :
  m w = (Done a, w') -> bindM FS m k w = k a w'.
Proof. intros E. unfold bindM. rewrite E. reflexivity. Qed.

(** X21.  An archive that is already there is not fetched again: when the header
    is missing, the directory exists and the local archive opens and is not
    empty, the first thing the call does is report success and unpack the
    header from the archive. *)
Theorem download_if_necessary_archive_present
    (llc : Z) (local_directory header archive : string) (n : N)
    (w : world FS) :
  local_header_filename llc local_directory = Some header ->
  local_tile_filename llc local_directory = Some archive ->
  os_open (fs FS w) header = None ->
  os_stat (fs FS w) local_directory = Some true ->
  os_open (fs FS w) archive = Some n -> n <> 0%N ->
  exists rest,
    trace FS (snd (download_if_necessary FS os_open os_stat os_mkdir os_unlink
                     os_system debug llc local_directory w))
    = (trace FS w
       ++ Cout "Download succeeded"
       :: System ("unzip -qq -o -d " ++ local_directory ++ " " ++ archive
                  ++ " " ++ "usgs_ned_13_" ++ base_filename llc
                  ++ "_gridfloat.hdr")
       :: rest)%list.
Proof.
  unfold local_header_filename, local_tile_filename, dirname_with_slash.
  intros Hh Ha Hoh Hst Hoa Hn.
  unfold download_if_necessary.
  destruct (last_char local_directory) as [c | ]; [ | discriminate Hh].
  match type of Hh with
  | Some ?x = _ => assert (Eh : x = header) by congruence
  end.
  match type of Ha with
  | Some ?x = _ => assert (Ea : x = archive) by congruence
  end.
  clear Hh Ha. cbn [lift]. rewrite bindM_ret. cbv zeta.
  rewrite Eh, Ea.
  rewrite (bindM_Done _ _ w w false)
    by (unfold file_exists; rewrite Hoh; reflexivity).
  rewrite (bindM_Done _ _ w w true)
    by (unfold file_empty, file_size, bindM, ret; rewrite Hoh; reflexivity).
  match goal with
  | |- context [file_empty FS os_open ?f] =>
      rewrite (bindM_Done (file_exists FS os_open f) _ w w _ eq_refl);
      rewrite (bindM_Done (file_empty FS os_open f) _ w w _ eq_refl)
  end.
  cbn [negb orb].
  rewrite (bindM_Done _ _ w w tt)
    by (unfold directory_create_if_necessary, directory_exists, bindM;
        rewrite Hst; reflexivity).
  cbn [download_loop].
  rewrite (bindM_Done _ _ w w true).
  2: { unfold bindM, file_exists, file_empty, file_size, when, ret, bindM.
       cbn beta. rewrite !Hoa. cbn [negb]. rewrite !Hoa.
       apply N.eqb_neq in Hn. rewrite Hn. reflexivity. }
  set (w1 := {| fs := fs FS w;
                trace := (trace FS w ++ [Cout "Download succeeded"])%list |}).
  rewrite (bindM_Done _ _ w w1 tt) by reflexivity.
  rewrite (bindM_Done _ _ w1 w1 tt) by reflexivity.
  unfold unpack at 1.
  set (cmd := "unzip -qq -o -d " ++ local_directory ++ " " ++ archive ++ " "
              ++ "usgs_ned_13_" ++ base_filename llc ++ "_gridfloat.hdr").
  set (w2 := {| fs := os_system cmd (fs FS w1);
                trace := (trace FS w1 ++ [System cmd])%list |}).
  match goal with
  | |- context [bindM FS (bindM FS (system FS os_system cmd) ?k1) ?k2 w1] =>
      assert (E : bindM FS (bindM FS (system FS os_system cmd) k1) k2 w1
                  = bindM FS (k1 tt) k2 w2) by reflexivity;
      assert (Hk : appends (fetch_event archive local_directory)
                     (bindM FS (k1 tt) k2))
  end.
  { apply appends_bind.
    - apply appends_bind; [apply appends_file_exists | intros e].
      apply appends_when.
      apply appends_bind;
        [apply appends_when, appends_emit; exact I | intros _].
      apply appends_bind;
        [apply appends_system; right; left;
         apply (prefix_append "unzip -qq -o -d ") | intros _].
      apply appends_bind; [apply appends_file_exists | intros e'].
      apply appends_bind.
      + destruct e'; [apply appends_ret | ].
        apply appends_bind; [apply appends_emit; exact I | intros _].
        apply appends_nothing. reflexivity.
      + intros _. apply appends_system. right; right.
        apply (prefix_append "mv ").
    - intros _. apply appends_unpack. }
  rewrite E. destruct (Hk w2) as (rest & Er & _).
  exists rest. rewrite Er. unfold w2, w1. cbn [trace].
  rewrite <- !app_assoc. reflexivity.
Qed.

(** Commands of the download loop. *)
Definition only_wget (e : event) : Prop :=
  match e with
  | System command => prefix "wget -q -O " command = true
  | _ => True
  end.

(** While the archive stays absent or empty, the loop tries every name and
    reports failure. *)
Lemma download_loop_fails (archive remote_directory : string)
    (remote_filenames : list string) (n : Z) (w : world FS) :
  (forall s, os_open s archive = None \/ os_open s archive = Some 0%N) ->
  exists w' l,
    download_loop FS os_open os_unlink os_system debug remote_directory
      archive remote_filenames n w = (Done false, w')
    /\ trace FS w' = (trace FS w ++ l)%list /\ Forall only_wget l.
Proof.
  intros H. revert n w.
  induction remote_filenames as [ | name rest IH]; intros n w;
    cbn [download_loop].
  - exists w, []. rewrite app_nil_r. repeat split. constructor.
  - set (command := "wget -q -O " ++ archive ++ " " ++ remote_directory ++ name).
    assert (Hc : only_wget (System command))
      by apply (prefix_append "wget -q -O ").
    (* the download, when the archive is absent *)
    assert (H1 : exists w1 l1,
               forall (B : Type) (k : unit -> M FS B),
                 bindM FS (file_exists FS os_open archive)
                   (fun e => bindM FS
                      (when FS (negb e)
                         (bindM FS
                            (emit FS (Cout ("File " ++ archive
                               ++ " does not exist; download attempt number "
                               ++ to_string (n + 1))))
                            (fun _ => bindM FS
                               (when FS debug
                                  (emit FS (Cout ("command = ***" ++ command
                                                  ++ "***"))))
                               (fun _ => system FS os_system command))))
                      k) w
                 = k tt w1
               /\ trace FS w1 = (trace FS w ++ l1)%list /\ Forall only_wget l1).
    { unfold bindM, file_exists, when, emit, system, ret.
      destruct (os_open (fs FS w) archive); cbn [negb].
      - exists w, []. intros B k. rewrite app_nil_r.
        repeat split. constructor.
      - destruct debug; eexists; eexists; intros B k;
          (split; [reflexivity | ]); cbn [trace fs];
          rewrite <- ?app_assoc; (split; [reflexivity | ]);
          repeat constructor; exact Hc. }
    destruct H1 as (w1 & l1 & H1).
    destruct (H1 _ (fun _ => ret FS tt)) as (_ & E1 & F1).
    (* the archive is empty or absent: it is deleted when it opens *)
    assert (H2 : exists w2 l2,
               forall (k : M FS bool),
                 bindM FS (file_empty FS os_open archive)
                   (fun empty =>
                      if empty
                      then bindM FS (file_delete FS os_open os_unlink archive)
                             (fun _ => k)
                      else ret FS true) w1
                 = k w2
               /\ trace FS w2 = (trace FS w1 ++ l2)%list /\ Forall only_wget l2).
    { unfold bindM, file_empty, file_size, file_delete, file_exists, when,
        ret, bindM.
      destruct (H (fs FS w1)) as [E | E]; rewrite E; cbn [N.eqb];
        cbn beta iota; rewrite ?E.
      - exists w1, []. intros k. rewrite app_nil_r.
        repeat split. constructor.
      - eexists; eexists; intros k; (split; [reflexivity | ]);
          cbn [trace fs]; (split; [reflexivity | ]);
          repeat constructor. }
    destruct H2 as (w2 & l2 & H2).
    destruct (H2 (ret FS false)) as (_ & E2 & F2).
    destruct (IH (n + 1)%Z w2) as (w' & l & E & Et & F).
    exists w', (l1 ++ l2 ++ l)%list.
    split; [ | split].
    + destruct (H1 _ (fun _ =>
                 bindM FS (file_empty FS os_open archive)
                   (fun empty =>
                      if empty
                      then bindM FS (file_delete FS os_open os_unlink archive)
                             (fun _ => download_loop FS os_open os_unlink
                                         os_system debug remote_directory
                                         archive rest (n + 1)%Z)
                      else ret FS true))) as (Ek & _).
      etransitivity; [exact Ek | ].
      destruct (H2 (download_loop FS os_open os_unlink os_system debug
                        remote_directory archive rest (n + 1)%Z)) as (Ek2 & _).
      etransitivity; [exact Ek2 | exact E].
    + rewrite Et, E2, E1, <- !app_assoc. reflexivity.
    + repeat (apply Forall_app; split); assumption.
Qed.

(** X22.  When the archive cannot be had - whatever is run, it stays absent or
    empty - and the header is missing, the call ends the process with status
    -1, having run nothing but [wget]: nothing is unpacked. *)
Theorem download_if_necessary_no_archive
    (llc : Z) (local_directory header archive : string) (w : world FS) :
  local_header_filename llc local_directory = Some header ->
  local_tile_filename llc local_directory = Some archive ->
  os_open (fs FS w) header = None ->
  os_stat (fs FS w) local_directory = Some true ->
  (forall s, os_open s archive = None \/ os_open s archive = Some 0%N) ->
  let run := download_if_necessary FS os_open os_stat os_mkdir os_unlink
               os_system debug llc local_directory w in
  fst run = Exited (-1)
  /\ exists added,
       trace FS (snd run) = (trace FS w ++ added)%list
       /\ In (Cerr "download failed; exiting") added
       /\ forall command, In (System command) added ->
            prefix "wget -q -O " command = true.
Proof.
  intros Hh Ha Hoh Hst Hoa run. subst run.
  unfold local_header_filename, local_tile_filename, dirname_with_slash in Hh, Ha.
  unfold download_if_necessary.
  destruct (last_char local_directory) as [c | ]; [ | discriminate Hh].
  match type of Hh with
  | Some ?x = _ => assert (Eh : x = header) by congruence
  end.
  match type of Ha with
  | Some ?x = _ => assert (Ea : x = archive) by congruence
  end.
  clear Hh Ha. cbn [lift]. rewrite bindM_ret. cbv zeta.
  rewrite Eh, Ea.
  rewrite (bindM_Done _ _ w w false)
    by (unfold file_exists; rewrite Hoh; reflexivity).
  rewrite (bindM_Done _ _ w w true)
    by (unfold file_empty, file_size, bindM, ret; rewrite Hoh; reflexivity).
  match goal with
  | |- context [file_empty FS os_open ?f] =>
      rewrite (bindM_Done (file_exists FS os_open f) _ w w _ eq_refl);
      rewrite (bindM_Done (file_empty FS os_open f) _ w w _ eq_refl)
  end.
  cbn [negb orb].
  rewrite (bindM_Done _ _ w w tt)
    by (unfold directory_create_if_necessary, directory_exists, bindM;
        rewrite Hst; reflexivity).
  match goal with
  | |- context [download_loop FS os_open os_unlink os_system debug ?rd archive ?names ?n] =>
      destruct (download_loop_fails archive rd names n w Hoa)
        as (w' & l & E & Et & F)
  end.
  rewrite (bindM_Done _ _ w w' false E).
  unfold bindM, emit, exit. cbn [fst snd trace].
  split; [reflexivity | ].
  eexists. rewrite Et, <- !app_assoc. split; [reflexivity | ].
  split.
  - apply in_or_app. right. cbn. tauto.
  - intros command Hin. apply in_app_or in Hin. destruct Hin as [Hin | Hin].
    + rewrite Forall_forall in F. apply (F _ Hin).
    + cbn in Hin. destruct Hin as [Hin | [Hin | []]]; discriminate Hin.
Qed.

End FetchTrace.

Module FetchRuns.
Import FetchEvaluation.

(** The archive of tile 41106 is there, the header is not. *)
Definition unpacked_not : world files :=
  {| fs := [ ("/tmp/drmap/n41w106.zip", 407000000%N) ];
     trace := [] |}.

Lemma download_if_necessary_archive_present_witness :
  exists rest,
    trace files
      (snd (download_if_necessary files open (fun _ _ => Some true)
              (fun _ s => (0%Z, s)) (fun _ s => s) (fun _ s => s) false
              41106 "/tmp/drmap" unpacked_not))
    = (trace files unpacked_not
       ++ Cout "Download succeeded"
       :: System ("unzip -qq -o -d " ++ "/tmp/drmap" ++ " "
                  ++ "/tmp/drmap/n41w106.zip"
                  ++ " " ++ "usgs_ned_13_" ++ base_filename 41106
                  ++ "_gridfloat.hdr")
       :: rest)%list.
Proof.
  apply (download_if_necessary_archive_present files open _ _ _ _ _ 41106
           "/tmp/drmap" "/tmp/drmap/usgs_ned_13_n41w106_gridfloat.hdr"
           "/tmp/drmap/n41w106.zip" 407000000%N unpacked_not);
    vm_compute; first [reflexivity | discriminate].
Defined.

(** An operating system on which no file ever opens. *)
Lemma download_if_necessary_no_archive_witness :
  let run := download_if_necessary unit (fun _ _ => None)
               (fun _ _ => Some true) (fun _ s => (0%Z, s)) (fun _ s => s)
               (fun _ s => s) false 41106 "/tmp/drmap"
               {| fs := tt; trace := [] |} in
  fst run = Exited (-1)
  /\ exists added,
       trace unit (snd run) = (trace unit {| fs := tt; trace := [] |} ++ added)%list
       /\ In (Cerr "download failed; exiting") added
       /\ forall command, In (System command) added ->
            prefix "wget -q -O " command = true.
Proof.
  apply (download_if_necessary_no_archive unit (fun _ _ => None) _ _ _ _ _
           41106 "/tmp/drmap" "/tmp/drmap/usgs_ned_13_n41w106_gridfloat.hdr"
           "/tmp/drmap/n41w106.zip" {| fs := tt; trace := [] |});
    try (vm_compute; reflexivity).
  intros s. left. reflexivity.
Defined.

End FetchRuns.

(** ** The header of a tile: lines, fields and keys *)

Section SplitFacts.

Lemma index_from (n : nat) (s1 s2 : string) (m : nat) :
  index n s1 s2 = Some m ->
  (n <= m)%nat /\ (m + String.length s1 <= String.length s2)%nat.
Proof.
  revert n m. induction s2 as [ | b s2 IH]; intros n m; cbn [index].
  - destruct n; [ | discriminate]. destruct s1; [ | discriminate].
    intros E. inversion E. cbn. lia.
  - destruct n as [ | n].
    + destruct (prefix s1 (String b s2)) eqn:Ep.
      * intros E. inversion E. subst m. split; [lia | ].
        apply prefix_correct in Ep.
        assert (H : (String.length (substring 0 (String.length s1) (String b s2))
                     = String.length s1)%nat) by (rewrite Ep; reflexivity).
        clear Ep. revert H. generalize (String b s2) as s. generalize s1 as p.
        clear. intros p. induction p as [ | c p IHp]; intros s; cbn; [lia | ].
        destruct s as [ | d s]; cbn; [discriminate | ].
        intros H. injection H as H. apply IHp in H. lia.
      * destruct (index 0 s1 s2) as [k | ] eqn:Ek; [ | discriminate].
        intros E. inversion E. destruct (IH 0%nat k Ek). cbn. lia.
    + destruct (index n s1 s2) as [k | ] eqn:Ek; [ | discriminate].
      intros E. inversion E. destruct (IH n k Ek). cbn. lia.
Qed.

Lemma index_empty (n : nat) (s : string) :
  (n <= String.length s)%nat -> index n "" s = Some n.
Proof.
  revert n. induction s as [ | b s IH]; intros n Hn; cbn [index].
  - cbn in Hn. assert (n = 0)%nat by lia. subst n. reflexivity.
  - destruct n as [ | n]; [reflexivity | ].
    cbn in Hn. rewrite IH by lia. reflexivity.
Qed.

(** Every field followed by the separator. *)
Fixpoint terminated (separator : string) (fields : list string) : string :=
  match fields with
  | [] => ""
  | f :: rest => f ++ separator ++ terminated separator rest
  end.

Lemma append_assoc (a b c : string) : (a ++ b) ++ c = a ++ b ++ c.
Proof. induction a as [ | x a IH]; cbn; [reflexivity | now rewrite IH]. Qed.

Lemma append_nil_r (a : string) : a ++ "" = a.
Proof. induction a as [ | x a IH]; cbn; [reflexivity | now rewrite IH]. Qed.

Lemma terminated_app (separator : string) (l1 l2 : list string) :
  terminated separator (l1 ++ l2)
  = terminated separator l1 ++ terminated separator l2.
Proof.
  induction l1 as [ | f l1 IH]; cbn; [reflexivity | ].
  rewrite IH, !append_assoc. reflexivity.
Qed.

Lemma concat_snoc (separator : string) (l : list string) (x : string) :
  String.concat separator (l ++ [x]) = terminated separator l ++ x.
Proof.
  induction l as [ | f l IH]; [reflexivity | ].
  change ((f :: l) ++ [x])%list with (f :: (l ++ [x]))%list.
  cbn [terminated]. rewrite append_assoc, append_assoc, <- IH.
  destruct (l ++ [x])%list eqn:E; [destruct l; discriminate | reflexivity].
Qed.

Lemma concat_terminated (separator : string) (l : list string) :
  l <> [] -> String.concat separator l ++ separator = terminated separator l.
Proof.
  intros Hl. destruct (exists_last Hl) as (l' & x & ->).
  rewrite concat_snoc, terminated_app. cbn [terminated].
  rewrite append_assoc, append_nil_r. reflexivity.
Qed.

Lemma substring_split (s : string) (a b : nat) :
  (a <= String.length s)%nat ->
  substring 0 a s ++ substring a b s = substring 0 (a + b) s.
Proof.
  revert a. induction s as [ | c s IH]; intros a Ha.
  - cbn in Ha. assert (a = 0)%nat by lia. subst a. reflexivity.
  - destruct a as [ | a]; [reflexivity | ].
    cbn in Ha. cbn [substring Nat.add append]. rewrite IH by lia. reflexivity.
Qed.

Lemma substring_all (s : string) (n : nat) :
  (String.length s <= n)%nat -> substring 0 n s = s.
Proof.
  revert n. induction s as [ | c s IH]; intros n Hn.
  - destruct n; reflexivity.
  - destruct n as [ | n]; cbn in Hn; [lia | ].
    cbn [substring]. rewrite IH by lia. reflexivity.
Qed.

Lemma substring_shift (s : string) (a b k : nat) :
  (a <= b)%nat -> (b <= String.length s)%nat ->
  substring a (b - a) s ++ substring b k s = substring a (b - a + k) s.
Proof.
  revert a b. induction s as [ | c s IH]; intros a b Hab Hb.
  - cbn in Hb. assert (b = 0)%nat by lia. assert (a = 0)%nat by lia.
    subst. reflexivity.
  - destruct a as [ | a].
    + rewrite Nat.sub_0_r. apply substring_split. exact Hb.
    + destruct b as [ | b]; [lia | ].
      cbn in Hb. cbn [substring Nat.sub]. apply IH; lia.
Qed.

Lemma split_string_from_spec (cs separator : string) (fuel start_posn : nat)
    (rv : list string) :
  separator <> "" ->
  (start_posn <= String.length cs)%nat ->
  (String.length cs - start_posn < fuel)%nat ->
  terminated separator rv = substring 0 start_posn cs ->
  exists fields,
    split_string_from fuel cs separator start_posn rv = Some fields
    /\ (String.concat separator fields = cs \/ String.concat separator fields ++ separator = cs).
Proof.
  intros Hsep. revert start_posn rv.
  induction fuel as [ | fuel IH]; intros start_posn rv Hle Hfuel Hinv; [lia | ].
  cbn [split_string_from].
  destruct (Nat.ltb_spec start_posn (String.length cs)) as [Hlt | Hge].
  - destruct (index start_posn separator cs) as [posn | ] eqn:Ei.
    + destruct (index_from _ _ _ _ Ei) as [Hp1 Hp2].
      assert (Hl : (0 < String.length separator)%nat)
        by (destruct separator; [congruence | cbn; lia]).
      apply IH; [lia | lia | ].
      rewrite terminated_app, Hinv. cbn [terminated].
      rewrite append_nil_r, <- append_assoc.
      rewrite <- (index_correct1 _ _ _ _ Ei) at 1.
      replace (substring 0 start_posn cs ++ substring start_posn (posn - start_posn) cs)
        with (substring 0 posn cs).
      * rewrite substring_split by lia. reflexivity.
      * rewrite substring_split by lia. f_equal. lia.
    + eexists. split; [reflexivity | left].
      rewrite concat_snoc, Hinv, substring_split by lia.
      apply substring_all. lia.
  - exists rv. split; [reflexivity | ].
    assert (start_posn = String.length cs) by lia. subst start_posn.
    rewrite substring_all in Hinv by lia.
    destruct rv as [ | f rv].
    + left. cbn in Hinv. rewrite <- Hinv. reflexivity.
    + right. rewrite concat_terminated by discriminate. exact Hinv.
Qed.

(** X23.  With a separator that is not empty, [split_string] returns, and its
    fields joined by the separator give the string back, up to one
    separator at its end. *)
Theorem split_string_join (cs separator : string) :
  separator <> "" ->
  exists fields,
    split_string cs separator = Some fields
    /\ (String.concat separator fields = cs
        \/ String.concat separator fields ++ separator = cs).
Proof.
  intros Hsep. unfold split_string.
  apply split_string_from_spec; [exact Hsep | lia | lia | ].
  destruct cs; reflexivity.
Qed.

Lemma split_string_join_witness :
  exists fields,
    split_string "NCOLS 10812 " " " = Some fields
    /\ (String.concat " " fields = "NCOLS 10812 "
        \/ String.concat " " fields ++ " " = "NCOLS 10812 ").
Proof. apply split_string_join. discriminate. Defined.

(** X24.  With the empty separator the loop makes no progress: however many
    rounds it is given, it does not return on a string that is not empty. *)
Theorem split_string_empty_separator (cs : string) (fuel start_posn : nat)
    (rv : list string) :
  (start_posn < String.length cs)%nat ->
  split_string_from fuel cs "" start_posn rv = None.
Proof.
  intros Hlt. revert rv.
  induction fuel as [ | fuel IH]; intros rv; [reflexivity | ].
  cbn [split_string_from].
  destruct (Nat.ltb_spec start_posn (String.length cs)); [ | lia].
  rewrite index_empty by lia. cbn [String.length]. rewrite Nat.add_0_r.
  apply IH.
Qed.

Lemma split_string_empty_separator_witness :
  split_string_from 1000 "n41w106" "" 0 [] = None.
Proof. apply split_string_empty_separator. cbn. lia. Defined.

End SplitFacts.

Section HeaderFacts.
Context {D : Type} {AR : Arith D}.
Variable from_string_double : string -> D.

(** The number of fields of a header line. *)
Definition field_count (line : string) : nat :=
  match split_string line " " with
  | Some fields => List.length fields
  | None => 0
  end.

(** The first field of each line. *)
Definition header_keys (header_lines : list string) : list string :=
  map (fun line => match split_string line " " with
                   | Some (key :: _) => key
                   | _ => ""
                   end) header_lines.

Lemma header_line_cases (h : header_fields D) (line : string) :
  (field_count line <> 2%nat
   /\ header_line from_string_double h line = Exit (-1))
  \/ (field_count line = 2%nat
      /\ exists h', header_line from_string_double h line = Ok h').
Proof.
  unfold field_count, header_line.
  destruct (split_string_join line " " ltac:(discriminate)) as (fields & E & _).
  rewrite E.
  destruct (Nat.eqb_spec (List.length fields) 2) as [H2 | H2]; cbn [negb].
  - right. split; [exact H2 | ]. destruct h. eexists. reflexivity.
  - left. split; [exact H2 | reflexivity].
Qed.

Lemma header_loop_cases (header_lines : list string) (h : header_fields D) :
  (Exists (fun line => field_count line <> 2%nat) header_lines
   /\ header_loop from_string_double h header_lines = Exit (-1))
  \/ (Forall (fun line => field_count line = 2%nat) header_lines
      /\ exists h', header_loop from_string_double h header_lines = Ok h').
Proof.
  revert h. induction header_lines as [ | line rest IH]; intros h.
  - right. split; [constructor | ]. exists h. reflexivity.
  - cbn [header_loop].
    destruct (header_line_cases h line) as [[Hn E] | [H2 [h' E]]]; rewrite E;
      cbn [bind].
    + left. split; [left; exact Hn | reflexivity].
    + destruct (IH h') as [[Hex E'] | [Hall [h'' E']]].
      * left. split; [right; exact Hex | exact E'].
      * right. split; [constructor; assumption | exists h''; exact E'].
Qed.

(** X25.  The header is taken apart into lines, and then: when some line does
    not have exactly two fields - a blank line, a line that begins with a
    space, a lone key - the constructor ends the process with [exit(-1)];
    when every line has two, the header is imported, whatever the keys. *)
Theorem import_header_two_fields (content : string) :
  exists header_lines,
    header_lines_of content = Some header_lines
    /\ (Exists (fun line => field_count line <> 2%nat) header_lines ->
        import_header from_string_double content = Exit (-1))
    /\ (Forall (fun line => field_count line = 2%nat) header_lines ->
        exists h, import_header from_string_double content = Ok h).
Proof.
  unfold import_header, header_lines_of, to_lines.
  destruct (split_string_join
              (squash (to_upper (remove_char content CR_CHAR)) " ") EOL
              ltac:(discriminate)) as (header_lines & E & _).
  exists header_lines. rewrite E. split; [reflexivity | ].
  set (h0 := mk_header _ _ _ _ _ _ _ _).
  destruct (header_loop_cases header_lines h0) as [[Hex E'] | [Hall E']].
  - split; [intros _; exact E' | ].
    intros Hall. exfalso. rewrite Forall_forall in Hall.
    apply Exists_exists in Hex. destruct Hex as (line & Hin & Hn).
    apply Hn, Hall, Hin.
  - split; [ | intros _; exact E'].
    intros Hex. exfalso. rewrite Forall_forall in Hall.
    apply Exists_exists in Hex. destruct Hex as (line & Hin & Hn).
    apply Hn, Hall, Hin.
Qed.

Lemma header_line_nodata (h h' : header_fields D) (line : string) :
  header_line from_string_double h line = Ok h' ->
  ~ In "NODATA" (header_keys [line]) ->
  hf_nodata h' = hf_nodata h.
Proof.
  unfold header_line, header_keys. cbn [map In].
  destruct (split_string line " ") as [fields | ]; [ | discriminate].
  destruct (negb _); [discriminate | ].
  destruct fields as [ | key fields]; cbn [nth]; destruct h; intros E Hk;
    inversion E; cbn [hf_nodata].
  - reflexivity.
  - destruct (String.eqb_spec key "NODATA") as [-> | Hne]; [ | reflexivity].
    exfalso. apply Hk. left. reflexivity.
Qed.

Lemma header_loop_nodata (header_lines : list string) (h h' : header_fields D) :
  header_loop from_string_double h header_lines = Ok h' ->
  ~ In "NODATA" (header_keys header_lines) ->
  hf_nodata h' = hf_nodata h.
Proof.
  revert h. induction header_lines as [ | line rest IH]; intros h;
    cbn [header_loop].
  - intros E _. inversion E. reflexivity.
  - destruct (header_line from_string_double h line) as [h1 | | | ] eqn:E1;
      cbn [bind]; try discriminate.
    intros E Hk.
    rewrite (IH h1 E), (header_line_nodata h h1 line E1).
    + reflexivity.
    + intros Hin. apply Hk. cbn [header_keys map In] in Hin |- *.
      destruct Hin as [Hin | []]. left. exact Hin.
    + intros Hin. apply Hk. cbn [header_keys map In]. right. exact Hin.
Qed.

(** X26.  A header in which no line has the key NODATA - the header of a USGS
    tile has NODATA_VALUE only - leaves [_nodata] at zero: on the tile built
    from it, [valid_height] holds of the heights above 1 and of no other. *)
Theorem header_without_nodata (content : string) (header_lines : list string)
    (file : list D) (small_memory : bool) (t : grid_float_tile D) :
  header_lines_of content = Some header_lines ->
  ~ In "NODATA" (header_keys header_lines) ->
  new_tile from_string_double (Some content) (Some file) small_memory = Ok t ->
  _nodata t = 0
  /\ forall h, valid_height t h = (h >? to_float (of_int 1))%num.
Proof.
  intros El Hk. unfold new_tile, import_header. rewrite El.
  destruct (header_loop _ _ _) as [h | | | ] eqn:E; cbn [bind]; try discriminate.
  intros Et. inversion Et. subst t. clear Et.
  apply header_loop_nodata in E; [ | exact Hk]. cbn [hf_nodata] in E.
  assert (En : _nodata (construct (hf_n_columns h) (hf_n_rows h)
                 (hf_xllcorner h) (hf_yllcorner h) (hf_cellsize h)
                 (hf_nodata_value h) (hf_nodata h) small_memory file) = 0)
    by exact E.
  split; [exact En | ].
  intros x. unfold valid_height. rewrite En. reflexivity.
Qed.

End HeaderFacts.

Section HeaderNormalisation.

Lemma toupper_idempotent (ch : ascii) : toupper (toupper ch) = toupper ch.
Proof. destruct ch as [[] [] [] [] [] [] [] []]; reflexivity. Qed.

Lemma toupper_CR (ch : ascii) :
  Ascii.eqb (toupper ch) CR_CHAR = Ascii.eqb ch CR_CHAR.
Proof. destruct ch as [[] [] [] [] [] [] [] []]; reflexivity. Qed.

Lemma remove_char_to_upper (cs : string) :
  remove_char (to_upper cs) CR_CHAR = to_upper (remove_char cs CR_CHAR).
Proof.
  unfold to_upper. induction cs as [ | ch cs IH]; [reflexivity | ].
  cbn [transform_string remove_char]. rewrite toupper_CR.
  destruct (Ascii.eqb ch CR_CHAR); [exact IH | ].
  cbn [transform_string]. rewrite IH. reflexivity.
Qed.

Lemma to_upper_idempotent (cs : string) : to_upper (to_upper cs) = to_upper cs.
Proof.
  unfold to_upper. induction cs as [ | ch cs IH]; [reflexivity | ].
  cbn [transform_string]. rewrite toupper_idempotent, IH. reflexivity.
Qed.

Lemma remove_char_idempotent (cs : string) (c : ascii) :
  remove_char (remove_char cs c) c = remove_char cs c.
Proof.
  induction cs as [ | ch cs IH]; [reflexivity | ].
  cbn [remove_char]. destruct (Ascii.eqb ch c) eqn:E; [exact IH | ].
  cbn [remove_char]. rewrite E, IH. reflexivity.
Qed.

(** X27.  The constructor reads the header without regard to the case of its
    letters or to carriage returns: the header in upper case, and the
    header without its carriage returns, give the tile the header gives. *)
Theorem new_tile_case_and_CR {D : Type} {AR : Arith D}
    (from_string_double : string -> D) (content : string)
    (data : option (list D)) (small_memory : bool) :
  new_tile from_string_double (Some (to_upper content)) data small_memory
  = new_tile from_string_double (Some content) data small_memory
  /\ new_tile from_string_double (Some (remove_char content CR_CHAR)) data
       small_memory
     = new_tile from_string_double (Some content) data small_memory.
Proof.
  unfold new_tile, import_header, header_lines_of.
  rewrite remove_char_to_upper, to_upper_idempotent, remove_char_idempotent.
  split; reflexivity.
Qed.

End HeaderNormalisation.

Module HeaderEvaluation.
Import Double.

(** A trailing space does no harm; a blank line, a leading space and a
    lone key do. *)
Example field_count_examples :
  field_count "NCOLS 10812" = 2%nat
  /\ field_count "NCOLS 10812 " = 2%nat
  /\ field_count "" = 0%nat
  /\ field_count " NCOLS 10812" = 3%nat
  /\ field_count "NCOLS" = 1%nat.
Proof. repeat split; vm_compute; reflexivity. Qed.

(** The header of the USGS tile n41w106, with the line ends of a DOS file. *)
Definition usgs_header : string :=
  let CRLF := String (ascii_of_nat 13) EOL in
  "ncols         10812" ++ CRLF
  ++ "nrows         10812" ++ CRLF
  ++ "xllcorner     -106.00055555556" ++ CRLF
  ++ "yllcorner     39.99944444444" ++ CRLF
  ++ "cellsize      0.000092592592593" ++ CRLF
  ++ "NODATA_value  -9999" ++ CRLF
  ++ "byteorder     LSBFIRST" ++ CRLF.

(** A stand-in for the library's reading of a [double]. *)
Definition no_double (s : string) : float := of_int 0.

Example usgs_header_lines :
  header_lines_of usgs_header
  = Some [ "NCOLS 10812"; "NROWS 10812"; "XLLCORNER -106.00055555556";
           "YLLCORNER 39.99944444444"; "CELLSIZE 0.000092592592593";
           "NODATA_VALUE -9999"; "BYTEORDER LSBFIRST" ].
Proof. vm_compute. reflexivity. Qed.

Lemma header_without_nodata_witness :
  let t := construct 10812 10812 (of_int 0) (of_int 0) (of_int 0) (-9999) 0
             true [] in
  _nodata t = 0
  /\ forall h : float, valid_height t h = (h >? to_float (of_int 1))%num.
Proof.
  apply (header_without_nodata no_double usgs_header
           [ "NCOLS 10812"; "NROWS 10812"; "XLLCORNER -106.00055555556";
             "YLLCORNER 39.99944444444"; "CELLSIZE 0.000092592592593";
             "NODATA_VALUE -9999"; "BYTEORDER LSBFIRST" ]
           [] true).
  - vm_compute. reflexivity.
  - vm_compute. intros H. repeat (destruct H as [H | H]; [discriminate H | ]).
    exact H.
  - vm_compute. reflexivity.
Defined.

(** A blank line at the end of the header stops the program. *)
Example blank_line_exits :
  new_tile no_double (Some ("ncols 2" ++ EOL ++ "nrows 2" ++ EOL ++ EOL))
    (Some []) false
  = Exit (-1).
Proof. vm_compute. reflexivity. Qed.

End HeaderEvaluation.

(** ** Directory names *)

Section SlashFacts.

Lemma last_char_snoc (s : string) (c : ascii) :
  last_char (s ++ String c "") = Some c.
Proof.
  unfold last_char. rewrite append_length. cbn [String.length].
  destruct (Nat.eqb_spec (String.length s + 1) 0) as [H | _]; [lia | ].
  replace (String.length s + 1 - 1)%nat with (String.length s) by lia.
  induction s as [ | x s IH]; [reflexivity | exact IH].
Qed.

(** X28.  Of a directory name that is not empty, [dirname_with_slash] gives
    a name that ends with a slash and that a second call leaves as it is;
    the name itself when it ends with a slash already. *)
Theorem dirname_with_slash_ends (dirname slashed : string) :
  dirname_with_slash dirname = Some slashed ->
  last_char slashed = Some "/"%char
  /\ dirname_with_slash slashed = Some slashed
  /\ (last_char dirname = Some "/"%char -> slashed = dirname).
Proof.
  unfold dirname_with_slash.
  destruct (last_char dirname) as [c | ] eqn:Ec; [ | discriminate].
  destruct (Ascii.eqb_spec c "/") as [-> | Hne]; intros E; inversion E; subst.
  - rewrite append_nil_r, Ec. cbn. rewrite append_nil_r. tauto.
  - rewrite last_char_snoc. cbn. rewrite append_nil_r.
    repeat split. intros H. congruence.
Qed.

Lemma dirname_with_slash_ends_witness :
  last_char "/tmp/drmap/" = Some "/"%char
  /\ dirname_with_slash "/tmp/drmap/" = Some "/tmp/drmap/"
  /\ (last_char "/tmp/drmap" = Some "/"%char -> "/tmp/drmap/" = "/tmp/drmap").
Proof. apply (dirname_with_slash_ends "/tmp/drmap"). reflexivity. Defined.

End SlashFacts.
